(** * Warehouse-cluster geo dashboard (dashboard.py)

    A shallow embedding of the upload -> select -> aggregate -> render
    script, and the properties of its specification.

    Conventions of the embedding.
    - A pandas float is an exact rational or NaN ([float := option Q]);
      rounding of binary floating point and the infinities are outside the
      model.  Means are therefore stated within the tolerance of the
      specification only, and nothing is stated that rounding would
      break.
    - A cell of a column that the script never coerces is held the way
      [read_csv] leaves it: a number, NaN for an empty field, or a [str].
    - A value of a string column is [Some s], or [None] for NaN; a cluster
      label is an integer, or [None] for NaN.
    - The dataframe is a list of rows in file order; every row carries its
      index label (the RangeIndex of [read_csv]).
    - Exceptions are values: [result A := Error + A].
    - Python's [float] on a string is a parameter of ingestion. *)

From Stdlib Require Import List ZArith QArith Qabs String Ascii Bool Arith Lia.
From Stdlib Require Import Sorted.
Import ListNotations.

Set Implicit Arguments.

(** ** Exceptions *)

Inductive Error : Type :=
| ValueError   (* astype(float) / format on a str that is no number *)
| TypeError    (* arithmetic on a str *)
| KeyError.    (* .loc on a label that is absent; a column that the file lacks *)

Definition result (A : Type) : Type := (Error + A)%type.

Definition ret {A : Type} (a : A) : result A := inr a.
Definition raise {A : Type} (e : Error) : result A := inl e.

Definition bind {A B : Type} (c : result A) (k : A -> result B) : result B :=
  match c with
  | inl e => inl e
  | inr a => k a
  end.

Notation "x <- c ;; k" := (bind c (fun x => k))
  (at level 61, c at next level, right associativity).

Fixpoint mapM {A B : Type} (f : A -> result B) (l : list A) : result (list B) :=
  match l with
  | [] => ret []
  | a :: l' => b <- f a ;; bs <- mapM f l' ;; ret (b :: bs)
  end.

(** ** The pandas operations the script calls *)

Module Pandas.

(** A float64 value: a number or NaN. *)
Definition float : Type := option Q.
Definition NaN : float := None.

(** A cell of an uncoerced column: a number (a boolean is 0 or 1 in every
    calculation of the script), NaN for an empty field or a missing-value
    marker, or a [str]. *)
Inductive Cell : Type :=
| Num (q : Q)
| Missing
| Text (s : string).

(** [s == lit] on a column of strings: NaN equals nothing. *)
Definition str_eq (lit : string) (c : option string) : bool :=
  match c with
  | Some s => String.eqb s lit
  | None => false
  end.

(** Elementwise [a == b] between two values of a string column: NaN (and
    Python's None) compare unequal to everything, themselves included. *)
Definition elem_eq (a b : option string) : bool :=
  match a, b with
  | Some s, Some t => String.eqb s t
  | _, _ => false
  end.

(** Identity of values inside the hash table of [unique]: there all NaN are
    one value. *)
Definition same_value (a b : option string) : bool :=
  match a, b with
  | Some s, Some t => String.eqb s t
  | None, None => true
  | _, _ => false
  end.

(** [Series.unique()]: walk the column, keep a value the first time it is
    met; [seen] is the hash table. *)
Fixpoint unique_from (seen : list (option string)) (col : list (option string))
  : list (option string) :=
  match col with
  | [] => []
  | v :: col' =>
      if existsb (same_value v) seen
      then unique_from seen col'
      else v :: unique_from (v :: seen) col'
  end.

Definition unique (col : list (option string)) : list (option string) :=
  unique_from [] col.

(** [mean] with skipna: one pass that accumulates the sum and the number of
    observations; no observation gives NaN. *)
Definition mean_step (acc : Q * nat) (v : float) : Q * nat :=
  match v with
  | Some q => (fst acc + q, S (snd acc))
  | None => acc
  end.

Definition mean (vs : list float) : float :=
  let acc := fold_left mean_step vs (0, 0%nat) in
  match snd acc with
  | O => NaN
  | S _ => Some (fst acc / inject_Z (Z.of_nat (snd acc)))
  end.

(** The floats behind the cells of an object column; a [str] cannot take
    part in arithmetic. *)
Fixpoint to_numeric (cs : list Cell) : result (list float) :=
  match cs with
  | [] => ret []
  | Num q :: cs' => vs <- to_numeric cs' ;; ret (Some q :: vs)
  | Missing :: cs' => vs <- to_numeric cs' ;; ret (NaN :: vs)
  | Text _ :: _ => raise TypeError
  end.

(** [Series.mean()] on a selection of an uncoerced column. *)
Definition mean_cells (cs : list Cell) : result float :=
  vs <- to_numeric cs ;; ret (mean vs).

(** ['sum'] over a group of an uncoerced column: NaN is skipped, numbers
    add, strings concatenate, a number and a string do not add. *)
Definition sum_step (acc : option Cell) (c : Cell) : result (option Cell) :=
  match c, acc with
  | Missing, _ => ret acc
  | _, None => ret (Some c)
  | Num b, Some (Num a) => ret (Some (Num (a + b)))
  | Text b, Some (Text a) => ret (Some (Text (a ++ b)))
  | _, _ => raise TypeError
  end.

Fixpoint sum_from (acc : option Cell) (cs : list Cell) : result (option Cell) :=
  match cs with
  | [] => ret acc
  | c :: cs' => acc' <- sum_step acc c ;; sum_from acc' cs'
  end.

Definition sum_cells (cs : list Cell) : result Cell :=
  acc <- sum_from None cs ;;
  ret (match acc with Some c => c | None => Num 0 end).

(** ['count']: the number of values that are not NaN. *)
Definition count_notna (col : list (option string)) : nat :=
  List.length (filter (fun v => match v with Some _ => true | None => false end) col).

(** [(mask).sum()] of a boolean Series. *)
Definition sum_bool (mask : list bool) : nat :=
  List.length (filter (fun b => b) mask).

(** [list.count(lit)] on the Python list of a group's statuses. *)
Fixpoint list_count (lit : string) (l : list (option string)) : nat :=
  match l with
  | [] => 0
  | v :: l' => (if str_eq lit v then 1 else 0) + list_count lit l'
  end.

(** [x[mask]]: boolean indexing, position by position. *)
Fixpoint boolean_index {A : Type} (xs : list A) (mask : list bool) : list A :=
  match xs, mask with
  | x :: xs', b :: mask' =>
      if b then x :: boolean_index xs' mask' else boolean_index xs' mask'
  | _, _ => []
  end.

(** [groupby(key)] with the defaults [sort=True, dropna=True]: rows whose
    key is NaN are left out, the groups come in ascending key order, and a
    group keeps its rows in frame order. *)
Section GroupBy.
Variable A : Type.
Variable key : A -> option Z.

Fixpoint group_insert (k : Z) (r : A) (gs : list (Z * list A))
  : list (Z * list A) :=
  match gs with
  | [] => [(k, [r])]
  | (k', rs) :: gs' =>
      if (k <? k')%Z then (k, [r]) :: gs
      else if (k =? k')%Z then (k', rs ++ [r]) :: gs'
      else (k', rs) :: group_insert k r gs'
  end.

Definition group_step (gs : list (Z * list A)) (r : A) : list (Z * list A) :=
  match key r with
  | Some k => group_insert k r gs
  | None => gs
  end.

Definition groupby (rows : list A) : list (Z * list A) :=
  fold_left group_step rows [].
End GroupBy.

End Pandas.

Import Pandas.

(** ** The data model *)

(** A row of the uploaded file as [read_csv] returns it.  The six columns
    that the script coerces and [partner_gmv] are cells; the others are
    values of their column, NaN being [None].  Which of the columns the
    file has is said by its header, see [ingest_upload] and
    [present_upload]; the definitions up to there are the script on a file
    that has them all. *)
Record RawRow : Type := mkRawRow {
  raw_latitude : Cell;
  raw_longitude : Cell;
  raw_wh_lat : Cell;
  raw_wh_long : Cell;
  raw_distance_km : Cell;
  raw_dist_from_wh : Cell;
  raw_warehouse_name : option string;
  raw_k_means : option Z;
  raw_cx_status : option string;
  raw_customer_id : option string;
  raw_partner_gmv : Cell;
  raw_last_order_date : option string
}.

(** A row of [df] after the six [astype(float)] assignments. *)
Record Row : Type := mkRow {
  idx : nat;
  latitude : float;
  longitude : float;
  wh_lat : float;
  wh_long : float;
  distance_km : float;
  dist_from_wh : float;
  warehouse_name : option string;
  k_means : option Z;
  cx_status : option string;
  customer_id : option string;
  partner_gmv : Cell;
  last_order_date : option string
}.

(** ** Ingestion (lines 29-39) *)

Section Ingestion.
(** Python's [float(s)] on a [str]: [None] when it raises ValueError. *)
Variable py_float : string -> option float.

(** [astype(float)] on one cell. *)
Definition astype_float_cell (c : Cell) : result float :=
  match c with
  | Num q => ret (Some q)
  | Missing => ret NaN
  | Text s =>
      match py_float s with
      | Some v => ret v
      | None => raise ValueError
      end
  end.

(** [col.astype(float)] on a column. *)
Definition astype_float (col : list Cell) : result (list float) :=
  mapM astype_float_cell col.

(** Row [i] of the frame whose six columns have been replaced. *)
Definition coerced_row (lat lon wlat wlon dkm dwh : list float)
           (i : nat) (r : RawRow) : Row :=
  {| idx := i;
     latitude := nth i lat NaN;
     longitude := nth i lon NaN;
     wh_lat := nth i wlat NaN;
     wh_long := nth i wlon NaN;
     distance_km := nth i dkm NaN;
     dist_from_wh := nth i dwh NaN;
     warehouse_name := raw_warehouse_name r;
     k_means := raw_k_means r;
     cx_status := raw_cx_status r;
     customer_id := raw_customer_id r;
     partner_gmv := raw_partner_gmv r;
     last_order_date := raw_last_order_date r |}.

Fixpoint rows_from (mk : nat -> RawRow -> Row) (i : nat) (raw : list RawRow)
  : list Row :=
  match raw with
  | [] => []
  | r :: raw' => mk i r :: rows_from mk (S i) raw'
  end.

(** The six assignments [df[c] = df[c].astype(float)], in source order. *)
Definition ingest (raw : list RawRow) : result (list Row) :=
  lat <- astype_float (map raw_latitude raw) ;;
  lon <- astype_float (map raw_longitude raw) ;;
  wlat <- astype_float (map raw_wh_lat raw) ;;
  wlon <- astype_float (map raw_wh_long raw) ;;
  dkm <- astype_float (map raw_distance_km raw) ;;
  dwh <- astype_float (map raw_dist_from_wh raw) ;;
  ret (rows_from (coerced_row lat lon wlat wlon dkm dwh) 0 raw).
End Ingestion.

(** ** Warehouse selection (lines 44-53) *)

Definition warehouses (df : list Row) : list (option string) :=
  unique (map warehouse_name df).

(** [st.selectbox(label, options)]: the option at the chosen position, and
    Python's None when there is no option.  [None] stands for both values
    that are no string, NaN and Python's None. *)
Definition selectbox (options : list (option string)) (choice : nat)
  : option string :=
  nth choice options None.

Definition wh_data (df : list Row) (selected_warehouse : option string)
  : list Row :=
  filter (fun r => elem_eq (warehouse_name r) selected_warehouse) df.

(** [wh_data.iloc[0]['wh_lat']], [wh_data.iloc[0]['wh_long']] of a frame
    that is not empty. *)
Definition wh_coordinate (first : Row) : float * float :=
  (wh_lat first, wh_long first).

(** ** Aggregation (lines 58-81) *)

(** One row of [groupby('k_means').agg({...}).reset_index()]. *)
Record CentroidAgg : Type := mkCentroidAgg {
  ca_k_means : Z;
  ca_latitude : float;
  ca_longitude : float;
  ca_partner_gmv : Cell;
  ca_distance_km : float;
  ca_customer_id : nat;
  ca_cx_status : list (option string)
}.

Definition centroid_agg (g : Z * list Row) : result CentroidAgg :=
  gmv <- sum_cells (map partner_gmv (snd g)) ;;
  ret {| ca_k_means := fst g;
         ca_latitude := mean (map latitude (snd g));
         ca_longitude := mean (map longitude (snd g));
         ca_partner_gmv := gmv;
         ca_distance_km := mean (map distance_km (snd g));
         ca_customer_id := count_notna (map customer_id (snd g));
         ca_cx_status := map cx_status (snd g) |}.

(** One row of [cluster_data] once the two count columns are added. *)
Record ClusterRow : Type := mkClusterRow {
  cd_agg : CentroidAgg;
  cd_transacting_count : nat;
  cd_non_transacting_count : nat
}.

Definition add_counts (a : CentroidAgg) : ClusterRow :=
  {| cd_agg := a;
     cd_transacting_count := list_count "Transacting" (ca_cx_status a);
     cd_non_transacting_count := list_count "Non-Transacting" (ca_cx_status a) |}.

Definition cluster_data (wh : list Row) : result (list ClusterRow) :=
  aggs <- mapM centroid_agg (groupby k_means wh) ;;
  ret (map add_counts aggs).

(** [wh_data.loc[label, 'cx_status']]. *)
Definition loc_cx_status (wh : list Row) (label : nat) : result (option string) :=
  match find (fun r => Nat.eqb (idx r) label) wh with
  | Some r => ret (cx_status r)
  | None => raise KeyError
  end.

(** [x[wh_data.loc[x.index,'cx_status'] == lit]] for the column [col] of
    the group [g]. *)
Definition select_status {A : Type} (wh : list Row) (lit : string)
           (col : Row -> A) (g : list Row) : result (list A) :=
  statuses <- mapM (fun r => loc_cx_status wh (idx r)) g ;;
  ret (boolean_index (map col g) (map (str_eq lit) statuses)).

(** One row of [cluster_summary]. *)
Record SummaryRow : Type := mkSummaryRow {
  cs_k_means : Z;
  transacting_count : nat;
  non_transacting_count : nat;
  avg_pgmv_transacting : float;
  avg_pgmv_nontransacting : float;
  avg_dist_transacting : float;
  avg_dist_nontransacting : float
}.

Definition summary_agg (wh : list Row) (g : Z * list Row) : result SummaryRow :=
  let status := map cx_status (snd g) in
  pgmv_t <- select_status wh "Transacting" partner_gmv (snd g) ;;
  avg_pgmv_t <- mean_cells pgmv_t ;;
  pgmv_n <- select_status wh "Non-Transacting" partner_gmv (snd g) ;;
  avg_pgmv_n <- mean_cells pgmv_n ;;
  dist_t <- select_status wh "Transacting" dist_from_wh (snd g) ;;
  dist_n <- select_status wh "Non-Transacting" dist_from_wh (snd g) ;;
  ret {| cs_k_means := fst g;
         transacting_count := sum_bool (map (str_eq "Transacting") status);
         non_transacting_count := sum_bool (map (str_eq "Non-Transacting") status);
         avg_pgmv_transacting := avg_pgmv_t;
         avg_pgmv_nontransacting := avg_pgmv_n;
         avg_dist_transacting := mean dist_t;
         avg_dist_nontransacting := mean dist_n |}.

Definition cluster_summary (wh : list Row) : result (list SummaryRow) :=
  mapM (summary_agg wh) (groupby k_means wh).

(** ** Presentation (lines 86-171)

    The figure is the list of traces in drawing order and the layout.  The
    hover texts are kept as the values they are built from: the layout of
    the text and the rounding to two decimals are not modelled, the
    exceptions of the formatting are. *)

Record CentroidHover : Type := mkCentroidHover {
  ch_cluster : Z;
  ch_transacting : nat;
  ch_non_transacting : nat;
  ch_avg_distance_km : float;
  ch_total_gmv : float
}.

Record PointHover : Type := mkPointHover {
  ph_customer : option string;
  ph_last_order : option string;
  ph_dist_from_wh : float;
  ph_pgmv : float;
  ph_cluster : option Z
}.

Inductive Trace : Type :=
| Centroids (name color : string) (lat lon : list float)
            (text : list Z) (hovertext : list CentroidHover)
| Line (color : string) (lat lon : list float)
| Customers (name color : string) (lat lon : list float)
            (text : list PointHover).

Record Layout : Type := mkLayout {
  mapbox_style : string;
  mapbox_zoom : Z;
  mapbox_center : float * float;
  height : Z;
  width : Z
}.

Record Figure : Type := mkFigure {
  data : list Trace;
  layout : option Layout
}.

(** [go.Figure()], [fig.add_trace], [fig.update_layout]. *)
Definition new_figure : Figure := {| data := []; layout := None |}.

Definition add_trace (fig : Figure) (t : Trace) : Figure :=
  {| data := data fig ++ [t]; layout := layout fig |}.

Definition update_layout (fig : Figure) (l : Layout) : Figure :=
  {| data := data fig; layout := Some l |}.

(** [f"{v:.2f}"] on a cell of the summed column: a [str] has no format
    code 'f'. *)
Definition format_2f (c : Cell) : result float :=
  match c with
  | Num q => ret (Some q)
  | Missing => ret NaN
  | Text _ => raise ValueError
  end.

Definition centroid_hover (row : ClusterRow) : result CentroidHover :=
  gmv <- format_2f (ca_partner_gmv (cd_agg row)) ;;
  ret {| ch_cluster := ca_k_means (cd_agg row);
         ch_transacting := cd_transacting_count row;
         ch_non_transacting := cd_non_transacting_count row;
         ch_avg_distance_km := ca_distance_km (cd_agg row);
         ch_total_gmv := gmv |}.

Definition centroid_trace (cluster_data : list ClusterRow) : result Trace :=
  hover <- mapM centroid_hover cluster_data ;;
  ret (Centroids "Clusters" "blue"
         (map (fun row => ca_latitude (cd_agg row)) cluster_data)
         (map (fun row => ca_longitude (cd_agg row)) cluster_data)
         (map (fun row => ca_k_means (cd_agg row)) cluster_data)
         hover).

(** The body of the loop over [cluster_data.iterrows()]. *)
Definition line_trace (wh : float * float) (row : ClusterRow) : Trace :=
  Line "gray"
       [fst wh; ca_latitude (cd_agg row)]
       [snd wh; ca_longitude (cd_agg row)].

Definition add_lines (wh : float * float) (fig : Figure)
           (cluster_data : list ClusterRow) : Figure :=
  fold_left (fun f row => add_trace f (line_trace wh row)) cluster_data fig.

(** [wh_data[wh_data['cx_status'] == lit]]. *)
Definition with_status (lit : string) (wh : list Row) : list Row :=
  filter (fun r => str_eq lit (cx_status r)) wh.

Definition transacting (wh : list Row) : list Row :=
  with_status "Transacting" wh.

Definition non_transacting (wh : list Row) : list Row :=
  with_status "Non-Transacting" wh.

(** The text column of a customer layer; [.round(2)] raises on a [str].
    (pandas rounds a column by its dtype, and its releases differ on a
    column of objects; here every cell is rounded by itself.) *)
Definition point_hover (r : Row) (pgmv : float) : PointHover :=
  {| ph_customer := customer_id r;
     ph_last_order := last_order_date r;
     ph_dist_from_wh := dist_from_wh r;
     ph_pgmv := pgmv;
     ph_cluster := k_means r |}.

Fixpoint zip_with {A B C : Type} (f : A -> B -> C) (xs : list A) (ys : list B)
  : list C :=
  match xs, ys with
  | x :: xs', y :: ys' => f x y :: zip_with f xs' ys'
  | _, _ => []
  end.

Definition customer_trace (name color : string) (rows : list Row)
  : result Trace :=
  pgmv <- to_numeric (map partner_gmv rows) ;;
  ret (Customers name color (map latitude rows) (map longitude rows)
                 (zip_with point_hover rows pgmv)).

Definition render (wh : float * float) (wh_rows : list Row)
           (cluster_data : list ClusterRow) : result Figure :=
  let fig := new_figure in
  centroids <- centroid_trace cluster_data ;;
  let fig := add_trace fig centroids in
  let fig := add_lines wh fig cluster_data in
  green <- customer_trace "Transacting CX" "green" (transacting wh_rows) ;;
  let fig := add_trace fig green in
  red <- customer_trace "Non-Transacting CX" "red" (non_transacting wh_rows) ;;
  let fig := add_trace fig red in
  ret (update_layout fig
         {| mapbox_style := "open-street-map";
            mapbox_zoom := 8;
            mapbox_center := wh;
            height := 700;
            width := 10000 |}).

(** ** The script, run once per interaction *)

Inductive Page : Type :=
| AwaitingUpload                                   (* st.info *)
| NoClusterData                                    (* st.warning; st.stop *)
| Raised (e : Error)                               (* uncaught exception *)
| Dashboard (fig : Figure) (summary : list SummaryRow).

Definition page_of (c : result Page) : Page :=
  match c with
  | inl e => Raised e
  | inr p => p
  end.

Section Script.
Variable py_float : string -> option float.

Definition present (df : list Row) (choice : nat) : result Page :=
  let selected_warehouse := selectbox (warehouses df) choice in
  match wh_data df selected_warehouse with
  | [] => ret NoClusterData
  | first :: rest =>
      let wh_rows := first :: rest in
      centroids <- cluster_data wh_rows ;;
      summary <- cluster_summary wh_rows ;;
      fig <- render (wh_coordinate first) wh_rows centroids ;;
      ret (Dashboard fig summary)
  end.

Definition script (uploaded_file : option (list RawRow)) (choice : nat) : Page :=
  match uploaded_file with
  | None => AwaitingUpload
  | Some raw => page_of (df <- ingest py_float raw ;; present df choice)
  end.

End Script.

(** ** The columns of the upload

    The records above hold a field for each of the twelve columns that the
    script names.  A file may lack some of them: its header says which are
    there, and [df[c]] on a column that is not raises KeyError where the
    script first asks for it.  The fields of a column that the file lacks
    are never looked at.  ([agg] with a column that does not exist raises
    KeyError as well.) *)

Definition has_column (header : list string) (c : string) : bool :=
  existsb (String.eqb c) header.

(** The rest [k] of the script once column [c] has been asked for. *)
Definition need {A : Type} (header : list string) (c : string) (k : result A)
  : result A :=
  if has_column header c then k else raise KeyError.

Section Upload.
Variable py_float : string -> option float.

(** Lines 34-39 on a file with the given header. *)
Definition ingest_upload (header : list string) (raw : list RawRow)
  : result (list Row) :=
  need header "latitude" (
  lat <- astype_float py_float (map raw_latitude raw) ;;
  need header "longitude" (
  lon <- astype_float py_float (map raw_longitude raw) ;;
  need header "wh_lat" (
  wlat <- astype_float py_float (map raw_wh_lat raw) ;;
  need header "wh_long" (
  wlon <- astype_float py_float (map raw_wh_long raw) ;;
  need header "distance_km" (
  dkm <- astype_float py_float (map raw_distance_km raw) ;;
  need header "dist_from_wh" (
  dwh <- astype_float py_float (map raw_dist_from_wh raw) ;;
  ret (rows_from (coerced_row lat lon wlat wlon dkm dwh) 0 raw))))))).

(** Lines 44-171 on a frame read from such a file: [warehouse_name] is
    asked for at line 44, [k_means] and the columns of the [agg] at lines
    58-65, [last_order_date] at line 131, after the centroid trace is
    built and before [partner_gmv] is rounded. *)
Definition present_upload (header : list string) (df : list Row) (choice : nat)
  : result Page :=
  need header "warehouse_name" (
  let selected_warehouse := selectbox (warehouses df) choice in
  match wh_data df selected_warehouse with
  | [] => ret NoClusterData
  | first :: rest =>
      let wh_rows := first :: rest in
      need header "k_means" (
      need header "partner_gmv" (
      need header "customer_id" (
      need header "cx_status" (
      centroids <- cluster_data wh_rows ;;
      summary <- cluster_summary wh_rows ;;
      markers <- centroid_trace centroids ;;
      need header "last_order_date" (
      fig <- render (wh_coordinate first) wh_rows centroids ;;
      ret (Dashboard fig summary))))))
  end).

Definition script_upload (uploaded_file : option (list string * list RawRow))
           (choice : nat) : Page :=
  match uploaded_file with
  | None => AwaitingUpload
  | Some (header, raw) =>
      page_of (df <- ingest_upload header raw ;; present_upload header df choice)
  end.
End Upload.

(** The twelve columns that the script names. *)
Definition coerced_columns : list string :=
  ["latitude"; "longitude"; "wh_lat"; "wh_long"; "distance_km"; "dist_from_wh"]%string.

Definition other_columns : list string :=
  ["warehouse_name"; "k_means"; "partner_gmv"; "customer_id"; "cx_status";
   "last_order_date"]%string.

Definition complete (header : list string) : Prop :=
  forall c, In c (coerced_columns ++ other_columns) -> has_column header c = true.

(** ** The variables of lines 44-81 as a store

    The script rebinds and mutates: [cluster_data] is bound to the frame
    that [agg] returns and then receives two columns in place (lines
    68-69); the functions passed to the second [agg] read the variable
    [wh_data] when they are called.  Here the variables are names bound to
    references into a heap of objects; an assignment of a fresh value
    allocates, a column assignment overwrites the object in place. *)

Inductive Obj : Type :=
| OFrame (rows : list Row)
| ONames (options : list (option string))
| OName (name : option string)
| OFloat (v : float)
| OCentroids (aggs : list CentroidAgg)
             (transacting_column non_transacting_column : option (list nat))
| OSummary (rows : list SummaryRow).

Record Store : Type := mkStore {
  heap : list Obj;
  vars : list (string * nat)
}.

(** How a statement ends. *)
Inductive Step : Type :=
| Next (s : Store)
| Fails (e : Error)
| Stops                       (* st.stop() *)
| NameError (x : string).     (* a variable that is not bound as expected *)

Definition and_then (st : Step) (k : Store -> Step) : Step :=
  match st with
  | Next s => k s
  | other => other
  end.

Fixpoint ref_of (x : string) (vs : list (string * nat)) : option nat :=
  match vs with
  | [] => None
  | (y, l) :: vs' => if String.eqb x y then Some l else ref_of x vs'
  end.

Definition deref (s : Store) (x : string) : option Obj :=
  match ref_of x (vars s) with
  | Some l => nth_error (heap s) l
  | None => None
  end.

(** [x = <a fresh object>]. *)
Definition assign (x : string) (o : Obj) (s : Store) : Store :=
  {| heap := heap s ++ [o]; vars := (x, List.length (heap s)) :: vars s |}.

(** The object at reference [l] overwritten in place. *)
Fixpoint put (l : nat) (o : Obj) (h : list Obj) : list Obj :=
  match h, l with
  | [], _ => []
  | _ :: h', O => o :: h'
  | o' :: h', S l' => o' :: put l' o h'
  end.

Definition frame_at (x : string) (s : Store) : option (list Row) :=
  match deref s x with
  | Some (OFrame rows) => Some rows
  | _ => None
  end.

(** Line 44. *)
Definition bind_warehouses (s : Store) : Step :=
  match frame_at "df" s with
  | Some df => Next (assign "warehouses" (ONames (warehouses df)) s)
  | None => NameError "df"
  end.

(** Line 45. *)
Definition bind_selected_warehouse (choice : nat) (s : Store) : Step :=
  match deref s "warehouses" with
  | Some (ONames options) =>
      Next (assign "selected_warehouse" (OName (selectbox options choice)) s)
  | _ => NameError "warehouses"
  end.

(** Lines 47-50. *)
Definition bind_wh_data (s : Store) : Step :=
  match frame_at "df" s, deref s "selected_warehouse" with
  | Some df, Some (OName selected) =>
      match wh_data df selected with
      | [] => Stops
      | rows => Next (assign "wh_data" (OFrame rows) s)
      end
  | None, _ => NameError "df"
  | _, _ => NameError "selected_warehouse"
  end.

(** Lines 52-53. *)
Definition bind_wh_coordinate (s : Store) : Step :=
  match frame_at "wh_data" s with
  | Some (first :: _) =>
      Next (assign "wh_long" (OFloat (wh_long first))
                   (assign "wh_lat" (OFloat (wh_lat first)) s))
  | _ => NameError "wh_data"
  end.

(** Lines 58-65. *)
Definition bind_cluster_data (s : Store) : Step :=
  match frame_at "wh_data" s with
  | Some wh =>
      match mapM centroid_agg (groupby k_means wh) with
      | inr aggs => Next (assign "cluster_data" (OCentroids aggs None None) s)
      | inl e => Fails e
      end
  | None => NameError "wh_data"
  end.

(** Line 68: a column is set in the object that [cluster_data] refers to. *)
Definition set_transacting_count (s : Store) : Step :=
  match ref_of "cluster_data" (vars s) with
  | Some l =>
      match nth_error (heap s) l with
      | Some (OCentroids aggs _ other) =>
          let column := map (fun a => list_count "Transacting" (ca_cx_status a)) aggs in
          Next {| heap := put l (OCentroids aggs (Some column) other) (heap s);
                  vars := vars s |}
      | _ => NameError "cluster_data"
      end
  | None => NameError "cluster_data"
  end.

(** Line 69. *)
Definition set_non_transacting_count (s : Store) : Step :=
  match ref_of "cluster_data" (vars s) with
  | Some l =>
      match nth_error (heap s) l with
      | Some (OCentroids aggs other _) =>
          let column := map (fun a => list_count "Non-Transacting" (ca_cx_status a)) aggs in
          Next {| heap := put l (OCentroids aggs other (Some column)) (heap s);
                  vars := vars s |}
      | _ => NameError "cluster_data"
      end
  | None => NameError "cluster_data"
  end.

(** Lines 74-81: the group source and the frame that the lambdas look up
    are both what [wh_data] is bound to at this point. *)
Definition bind_cluster_summary (s : Store) : Step :=
  match frame_at "wh_data" s with
  | Some wh =>
      match mapM (summary_agg wh) (groupby k_means wh) with
      | inr rows => Next (assign "cluster_summary" (OSummary rows) s)
      | inl e => Fails e
      end
  | None => NameError "wh_data"
  end.

(** The aggregation, lines 58-81. *)
Definition aggregate (s : Store) : Step :=
  and_then (bind_cluster_data s) (fun s1 =>
  and_then (set_transacting_count s1) (fun s2 =>
  and_then (set_non_transacting_count s2) bind_cluster_summary)).

(** Lines 44-81. *)
Definition select_and_aggregate (choice : nat) (s : Store) : Step :=
  and_then (bind_warehouses s) (fun s1 =>
  and_then (bind_selected_warehouse choice s1) (fun s2 =>
  and_then (bind_wh_data s2) (fun s3 =>
  and_then (bind_wh_coordinate s3) aggregate))).

(** The store that lines 58-81 leave. *)
Definition aggregated (aggs : list CentroidAgg) (sm : list SummaryRow) (s : Store)
  : Store :=
  assign "cluster_summary" (OSummary sm)
    (assign "cluster_data"
       (OCentroids aggs
          (Some (map (fun a => list_count "Transacting" (ca_cx_status a)) aggs))
          (Some (map (fun a => list_count "Non-Transacting" (ca_cx_status a)) aggs)))
       s).

(** The rows of [cluster_data] read off its columns. *)
Fixpoint rows_of_columns (aggs : list CentroidAgg) (tc ntc : list nat)
  : list ClusterRow :=
  match aggs, tc, ntc with
  | a :: aggs', t :: tc', n :: ntc' =>
      {| cd_agg := a; cd_transacting_count := t; cd_non_transacting_count := n |}
        :: rows_of_columns aggs' tc' ntc'
  | _, _, _ => []
  end.

(** The two tables as the store holds them. *)
Definition tables_of (s : Store) : option (list ClusterRow * list SummaryRow) :=
  match deref s "cluster_data", deref s "cluster_summary" with
  | Some (OCentroids aggs (Some tc) (Some ntc)), Some (OSummary rows) =>
      Some (rows_of_columns aggs tc ntc, rows)
  | _, _ => None
  end.

(** ** A reader of decimal literals, for running the model

    The fragment [-]digits[.digits] of what Python's [float] accepts. *)

Definition digit_of (c : ascii) : option Z :=
  let n := nat_of_ascii c in
  if (48 <=? n)%nat && (n <=? 57)%nat then Some (Z.of_nat (n - 48)) else None.

Fixpoint read_digits (acc : Z) (n : nat) (s : string) : option (Z * nat) :=
  match s with
  | EmptyString => Some (acc, n)
  | String c s' =>
      match digit_of c with
      | Some d => read_digits (10 * acc + d)%Z (S n) s'
      | None => None
      end
  end.

Fixpoint read_decimal (acc : Z) (n : nat) (s : string) : option Q :=
  match s with
  | EmptyString => match n with O => None | S _ => Some (inject_Z acc) end
  | String "."%char s' =>
      match read_digits 0 0 s' with
      | Some (frac, m) =>
          match (n + m)%nat with
          | O => None
          | S _ => Some (inject_Z acc + inject_Z frac / inject_Z (10 ^ Z.of_nat m))
          end
      | None => None
      end
  | String c s' =>
      match digit_of c with
      | Some d => read_decimal (10 * acc + d)%Z (S n) s'
      | None => None
      end
  end.

Definition decimal_float (s : string) : option float :=
  match s with
  | String "-"%char s' =>
      match read_decimal 0 0 s' with
      | Some q => Some (Some (- q))
      | None => None
      end
  | _ =>
      match read_decimal 0 0 s with
      | Some q => Some (Some q)
      | None => None
      end
  end.

(** ** Sample uploads *)

Definition customer (name : option string) (wh : Q * Q) (k : Z) (at_ : Q * Q)
           (status id : option string) (gmv : Cell) : RawRow :=
  {| raw_latitude := Num (fst at_);
     raw_longitude := Num (snd at_);
     raw_wh_lat := Num (fst wh);
     raw_wh_long := Num (snd wh);
     raw_distance_km := Num 5;
     raw_dist_from_wh := Num 5;
     raw_warehouse_name := name;
     raw_k_means := Some k;
     raw_cx_status := status;
     raw_customer_id := id;
     raw_partner_gmv := gmv;
     raw_last_order_date := Some "2024-01-01"%string |}.

(** Warehouse A with two clusters (the second one without a recognised
    status, and with another warehouse coordinate in its row), and
    warehouse B. *)
Definition sample_upload : list RawRow :=
  [ customer (Some "A") (1, 1) 0 (1.1, 1.1) (Some "Transacting") (Some "c1") (Num 100);
    customer (Some "A") (1, 1) 0 (1.1, 1.1) (Some "Non-Transacting") (Some "c2") (Num 50);
    customer (Some "A") (9, 9) 1 (3, 2) (Some "Churned") (Some "c3") (Num 10);
    customer (Some "B") (4, 4) 0 (4.5, 4) (Some "Transacting") (Some "c4") (Num 7) ]%string.

(** The same upload with text in [partner_gmv]: in a row that is
    aggregated by status, and in a row that is not. *)
Definition upload_text_in_status_row : list RawRow :=
  [ customer (Some "A") (1, 1) 0 (1.1, 1.1) (Some "Transacting") (Some "c1") (Text "unknown");
    customer (Some "A") (1, 1) 0 (1.1, 1.1) (Some "Non-Transacting") (Some "c2") (Num 50);
    customer (Some "A") (9, 9) 1 (3, 2) (Some "Churned") (Some "c3") (Num 10);
    customer (Some "B") (4, 4) 0 (4.5, 4) (Some "Transacting") (Some "c4") (Num 7) ]%string.

Definition upload_text_in_other_row : list RawRow :=
  [ customer (Some "A") (1, 1) 0 (1.1, 1.1) (Some "Transacting") (Some "c1") (Num 100);
    customer (Some "A") (1, 1) 0 (1.1, 1.1) (Some "Non-Transacting") (Some "c2") (Num 50);
    customer (Some "A") (9, 9) 1 (3, 2) (Some "Churned") (Some "c3") (Text "unknown");
    customer (Some "B") (4, 4) 0 (4.5, 4) (Some "Transacting") (Some "c4") (Num 7) ]%string.

(** A row whose [customer_id] field is empty. *)
Definition upload_without_customer_id : list RawRow :=
  [ customer (Some "A") (1, 1) 0 (1.1, 1.1) (Some "Transacting") None (Num 100) ]%string.

(** A row whose [warehouse_name] field is empty. *)
Definition upload_without_warehouse_name : list RawRow :=
  [ customer None (1, 1) 0 (1.1, 1.1) (Some "Transacting") (Some "c1") (Num 100) ]%string.

(** A latitude that is text: once a literal, once not. *)
Definition upload_latitude (s : string) : list RawRow :=
  [ {| raw_latitude := Text s;
       raw_longitude := Num 1;
       raw_wh_lat := Num 1;
       raw_wh_long := Num 1;
       raw_distance_km := Num 5;
       raw_dist_from_wh := Num 5;
       raw_warehouse_name := Some "A"%string;
       raw_k_means := Some 0%Z;
       raw_cx_status := Some "Transacting"%string;
       raw_customer_id := Some "c1"%string;
       raw_partner_gmv := Num 100;
       raw_last_order_date := Some "2024-01-01"%string |} ].

(** Rows of warehouse A whose [latitude] field is empty: the only row of
    cluster 0, and one of the two rows of cluster 1. *)
Definition without_latitude (r : RawRow) : RawRow :=
  {| raw_latitude := Missing;
     raw_longitude := raw_longitude r;
     raw_wh_lat := raw_wh_lat r;
     raw_wh_long := raw_wh_long r;
     raw_distance_km := raw_distance_km r;
     raw_dist_from_wh := raw_dist_from_wh r;
     raw_warehouse_name := raw_warehouse_name r;
     raw_k_means := raw_k_means r;
     raw_cx_status := raw_cx_status r;
     raw_customer_id := raw_customer_id r;
     raw_partner_gmv := raw_partner_gmv r;
     raw_last_order_date := raw_last_order_date r |}.

Definition upload_missing_latitude : list RawRow :=
  [ without_latitude
      (customer (Some "A") (1, 1) 0 (0, 1) (Some "Transacting") (Some "c1") (Num 100));
    customer (Some "A") (1, 1) 1 (1.5, 1) (Some "Transacting") (Some "c2") (Num 50);
    without_latitude
      (customer (Some "A") (1, 1) 1 (0, 2) (Some "Transacting") (Some "c3") (Num 10)) ]%string.

(** A cluster whose rows have no [partner_gmv]. *)
Definition upload_missing_gmv : list RawRow :=
  [ customer (Some "A") (1, 1) 0 (1.1, 1.1) (Some "Transacting") (Some "c1") Missing;
    customer (Some "A") (1, 1) 0 (1.1, 1.1) (Some "Non-Transacting") (Some "c2") Missing ]%string.

(** The header of a file with all twelve columns, and of one without
    [last_order_date]. *)
Definition full_header : list string :=
  ["customer_id"; "latitude"; "longitude"; "wh_lat"; "wh_long"; "warehouse_name";
   "k_means"; "cx_status"; "partner_gmv"; "distance_km"; "dist_from_wh";
   "last_order_date"]%string.

Definition header_without_last_order_date : list string :=
  ["customer_id"; "latitude"; "longitude"; "wh_lat"; "wh_long"; "warehouse_name";
   "k_means"; "cx_status"; "partner_gmv"; "distance_km"; "dist_from_wh"]%string.

Definition frame_of (raw : list RawRow) : list Row :=
  match ingest decimal_float raw with
  | inr df => df
  | inl _ => []
  end.

Definition table_of {A : Type} (c : result (list A)) : list A :=
  match c with
  | inr tbl => tbl
  | inl _ => []
  end.

Definition sample_frame : list Row :=
  Eval vm_compute in frame_of sample_upload.

Definition sample_centroids : list ClusterRow :=
  Eval vm_compute in table_of (cluster_data (wh_data sample_frame (Some "A"%string))).

Definition sample_summary : list SummaryRow :=
  Eval vm_compute in table_of (cluster_summary (wh_data sample_frame (Some "A"%string))).

Definition sample_page : Page :=
  Eval vm_compute in script decimal_float (Some sample_upload) 0.

(** A store in which [df] is bound to the sample frame and [cluster_data]
    still holds a table of an earlier selection. *)
Definition sample_store : Store :=
  {| heap := [OFrame sample_frame; OCentroids [] (Some []) (Some [])];
     vars := [("cluster_data", 1%nat); ("df", 0%nat)]%string |}.

Definition sample_subset_store : Store :=
  assign "wh_data" (OFrame (wh_data sample_frame (Some "A"%string))) sample_store.

(** ** Notions used to state the properties *)

Section Groups.
Variable A : Type.
Variable key : A -> option Z.

(** The rows that [frame[frame[key] == k]] keeps. *)
Definition has_key (k : Z) (r : A) : bool :=
  match key r with
  | Some k' => (k' =? k)%Z
  | None => false
  end.

(** The rows filed under [k] in a list of groups. *)
Definition group_of (k : Z) (gs : list (Z * list A)) : list A :=
  match find (fun g => (fst g =? k)%Z) gs with
  | Some g => snd g
  | None => []
  end.

Definition ascending (gs : list (Z * list A)) : Prop :=
  StronglySorted (fun g h => (fst g < fst h)%Z) gs.
End Groups.

(** The member rows of cluster [k] in a warehouse subset:
    [wh[wh['k_means'] == k]]. *)
Definition cluster_rows (k : Z) (wh : list Row) : list Row :=
  filter (has_key k_means k) wh.

(** The numbers of a float column, NaN left out. *)
Fixpoint numbers (vs : list float) : list Q :=
  match vs with
  | [] => []
  | Some q :: vs' => q :: numbers vs'
  | None :: vs' => numbers vs'
  end.

Definition Qsum (qs : list Q) : Q := fold_right Qplus 0 qs.

(** The arithmetic mean of the specification: the sum of the values over
    their number. *)
Definition arithmetic_mean (qs : list Q) : Q :=
  Qsum qs / inject_Z (Z.of_nat (List.length qs)).

Definition tolerance : Q := 1 # 1000000000.

(** [x] is the mean of the column [vs] within the tolerance; a column
    without any number has no mean, and [x] is NaN then. *)
Definition is_mean_of (x : float) (vs : list float) : Prop :=
  match numbers vs, x with
  | [], None => True
  | _ :: _, Some m => Qabs (m - arithmetic_mean (numbers vs)) <= tolerance
  | _, _ => False
  end.

(** The position at which [v] is first met in [l] ([length l] if never). *)
Fixpoint first_index (v : option string) (l : list (option string)) : nat :=
  match l with
  | [] => 0
  | w :: l' => if same_value w v then 0 else S (first_index v l')
  end.

(** [v] is not in the hash table [seen]. *)
Definition unseen (seen : list (option string)) (v : option string) : bool :=
  negb (existsb (same_value v) seen).

(** The two recognised statuses. *)
Definition recognised (s : option string) : bool :=
  str_eq "Transacting" s || str_eq "Non-Transacting" s.

(** The cells of a raw row that ingestion coerces. *)
Definition six_cells (r : RawRow) : list Cell :=
  [raw_latitude r; raw_longitude r; raw_wh_lat r; raw_wh_long r;
   raw_distance_km r; raw_dist_from_wh r].

(** A cell that holds text which is no number. *)
Definition non_numeric (py_float : string -> option float) (c : Cell) : bool :=
  match c with
  | Text s => match py_float s with Some _ => false | None => true end
  | _ => false
  end.


(** Two raw rows that differ at most in [partner_gmv]. *)
Definition same_but_partner_gmv (r r' : RawRow) : Prop :=
  six_cells r = six_cells r' /\
  raw_warehouse_name r = raw_warehouse_name r' /\
  raw_k_means r = raw_k_means r' /\
  raw_cx_status r = raw_cx_status r' /\
  raw_customer_id r = raw_customer_id r' /\
  raw_last_order_date r = raw_last_order_date r'.

(** A cell of [partner_gmv] that is no [str]. *)
Definition numeric_cell (c : Cell) : bool :=
  match c with
  | Text _ => false
  | _ => true
  end.

(** A frame whose [partner_gmv] column was read as numbers. *)
Definition numeric_partner_gmv (rows : list Row) : Prop :=
  Forall (fun r => numeric_cell (partner_gmv r) = true) rows.

(** A row that carries a cluster label. *)
Definition labelled (r : Row) : bool :=
  match k_means r with
  | Some _ => true
  | None => false
  end.

(** The cluster column of the two tables. *)
Definition centroid_keys (cd : list ClusterRow) : list Z :=
  map (fun row => ca_k_means (cd_agg row)) cd.

Definition summary_keys (sm : list SummaryRow) : list Z :=
  map cs_k_means sm.

(** The numbers among the cells of an uncoerced column. *)
Fixpoint cell_numbers (cs : list Cell) : list Q :=
  match cs with
  | [] => []
  | Num q :: cs' => q :: cell_numbers cs'
  | _ :: cs' => cell_numbers cs'
  end.

(** [x] is the mean of the numbers [qs] within the tolerance, NaN when
    there is none. *)
Definition is_mean_of_numbers (x : float) (qs : list Q) : Prop :=
  match qs, x with
  | [], None => True
  | _ :: _, Some m => Qabs (m - arithmetic_mean qs) <= tolerance
  | _, _ => False
  end.

(** The cell that a formatted or rounded number came from. *)
Definition cell_of (v : float) : Cell :=
  match v with
  | Some q => Num q
  | None => Missing
  end.

(** [h] is the hover entry of the centroid of [row]. *)
Definition hover_of_cluster (row : ClusterRow) (h : CentroidHover) : Prop :=
  ch_cluster h = ca_k_means (cd_agg row) /\
  ch_transacting h = cd_transacting_count row /\
  ch_non_transacting h = cd_non_transacting_count row /\
  ch_avg_distance_km h = ca_distance_km (cd_agg row) /\
  ca_partner_gmv (cd_agg row) = cell_of (ch_total_gmv h).

(** [h] is the hover entry of the customer point of [r]. *)
Definition hover_of_customer (r : Row) (h : PointHover) : Prop :=
  ph_customer h = customer_id r /\
  ph_last_order h = last_order_date r /\
  ph_dist_from_wh h = dist_from_wh r /\
  ph_cluster h = k_means r /\
  partner_gmv r = cell_of (ph_pgmv h).

(** Equality of the values of a column, as the specification means it. *)
Definition same_name (a b : option string) : {a = b} + {a <> b}.
Proof. decide equality. apply string_dec. Defined.

Definition same_label (a b : option Z) : {a = b} + {a <> b}.
Proof. decide equality. apply Z.eq_dec. Defined.

(** The rows of the uploaded table whose [warehouse_name] is [name] and
    whose [k_means] is [k], in file order. *)
Definition members_of (name : string) (k : Z) (df : list Row) : list Row :=
  filter (fun r => if same_name (warehouse_name r) (Some name)
                   then if same_label (k_means r) (Some k) then true else false
                   else false) df.



(** * Properties *)

(** ** The error monad *)

Lemma bind_inr {A B : Type} (c : result A) (k : A -> result B) (b : B) :
  bind c k = inr b -> exists a, c = inr a /\ k a = inr b.
Proof.
  destruct c as [e | a]; simpl; intros H.
  - discriminate H.
  - exists a. split; [reflexivity | exact H].
Qed.

Lemma bind_inl {A B : Type} (c : result A) (k : A -> result B) (e : Error) :
  bind c k = inl e -> c = inl e \/ exists a, c = inr a /\ k a = inl e.
Proof.
  destruct c as [e' | a]; simpl; intros H.
  - left. injection H as ->. reflexivity.
  - right. exists a. split; [reflexivity | exact H].
Qed.

(** Takes a hypothesis [x <- c ;; k = inr b] apart. *)
Ltac bind_inv H :=
  let a := fresh "a" in
  let Ha := fresh "Ha" in
  apply bind_inr in H; destruct H as [a [Ha H]].

Lemma mapM_Forall2 {A B : Type} (f : A -> result B) (l : list A) (bs : list B) :
  mapM f l = inr bs -> Forall2 (fun a b => f a = inr b) l bs.
Proof.
  revert bs. induction l as [| a l IH]; simpl; intros bs H.
  - injection H as <-. constructor.
  - bind_inv H. bind_inv H. injection H as <-.
    constructor; [assumption | apply IH; assumption].
Qed.

Lemma mapM_total {A B : Type} (f : A -> result B) (l : list A) :
  (forall a, In a l -> exists b, f a = inr b) -> exists bs, mapM f l = inr bs.
Proof.
  induction l as [| a l IH]; simpl; intros H.
  - eexists. reflexivity.
  - destruct (H a (or_introl eq_refl)) as [b Hb]. rewrite Hb. simpl.
    destruct IH as [bs Hbs]; [intros; apply H; right; assumption |].
    rewrite Hbs. simpl. eexists. reflexivity.
Qed.

Lemma mapM_inl {A B : Type} (f : A -> result B) (l : list A) (e : Error) :
  mapM f l = inl e -> exists a, In a l /\ f a = inl e.
Proof.
  induction l as [| a l IH]; simpl; intros H.
  - discriminate H.
  - destruct (f a) as [e' | b] eqn:Hfa; simpl in H.
    + injection H as ->. exists a. split; [left; reflexivity | assumption].
    + destruct (mapM f l) as [e' | bs]; simpl in H; [| discriminate H].
      injection H as ->. destruct (IH eq_refl) as [a' [Hin Ha']].
      exists a'. split; [right; assumption | assumption].
Qed.

Lemma Forall2_In_r {A B : Type} (R : A -> B -> Prop) (l : list A) (bs : list B) (b : B) :
  Forall2 R l bs -> In b bs -> exists a, In a l /\ R a b.
Proof.
  induction 1 as [| a b' l bs' Hab _ IH]; simpl; intros Hin.
  - contradiction.
  - destruct Hin as [<- | Hin].
    + exists a. split; [left; reflexivity | assumption].
    + destruct (IH Hin) as [a' [Ha' Hr]]. exists a'. split; [right |]; assumption.
Qed.

Lemma Forall2_In_l {A B : Type} (R : A -> B -> Prop) (l : list A) (bs : list B) (a : A) :
  Forall2 R l bs -> In a l -> exists b, In b bs /\ R a b.
Proof.
  induction 1 as [| a' b l' bs' Hab _ IH]; simpl; intros Hin.
  - contradiction.
  - destruct Hin as [<- | Hin].
    + exists b. split; [left; reflexivity | assumption].
    + destruct (IH Hin) as [b' [Hb' Hr]]. exists b'. split; [right |]; assumption.
Qed.

(** ** groupby *)

Section GroupByFacts.
Variable A : Type.
Variable key : A -> option Z.

Lemma group_of_above (k : Z) (gs : list (Z * list A)) :
  Forall (fun g => (k < fst g)%Z) gs -> group_of k gs = [].
Proof.
  unfold group_of. induction 1 as [| g gs Hg _ IH]; simpl.
  - reflexivity.
  - destruct (Z.eqb_spec (fst g) k); [lia | exact IH].
Qed.

Lemma group_insert_keys (k : Z) (r : A) (gs : list (Z * list A)) (P : Z -> Prop) :
  P k -> Forall (fun g => P (fst g)) gs ->
  Forall (fun g => P (fst g)) (group_insert k r gs).
Proof.
  intros Hk. induction 1 as [| [k' rs] gs Hg Hgs IH]; simpl.
  - constructor; [exact Hk | constructor].
  - destruct (k <? k')%Z.
    + constructor; [exact Hk | constructor; assumption].
    + destruct (k =? k')%Z; constructor; assumption.
Qed.

Lemma group_insert_ascending (k : Z) (r : A) (gs : list (Z * list A)) :
  ascending gs -> ascending (group_insert k r gs).
Proof.
  unfold ascending. induction 1 as [| [k' rs] gs Hs IH Hall]; simpl.
  - constructor; constructor.
  - destruct (Z.ltb_spec k k') as [Hlt | Hge].
    + constructor.
      * constructor; assumption.
      * constructor; [simpl; exact Hlt |].
        eapply Forall_impl; [| exact Hall]. simpl. intros g Hg. lia.
    + destruct (Z.eqb_spec k k') as [Heq | Hne].
      * constructor; assumption.
      * constructor; [exact IH |].
        apply (@group_insert_keys k r gs (fun z => (k' < z)%Z)); [lia | exact Hall].
Qed.

Lemma group_of_insert (k k' : Z) (r : A) (gs : list (Z * list A)) :
  ascending gs ->
  group_of k (group_insert k' r gs) =
  if (k' =? k)%Z then group_of k gs ++ [r] else group_of k gs.
Proof.
  unfold ascending. induction 1 as [| [k0 rs] gs Hs IH Hall].
  - unfold group_of. simpl. destruct (k' =? k)%Z; reflexivity.
  - simpl. destruct (Z.ltb_spec k' k0) as [Hlt | Hge].
    + destruct (Z.eqb_spec k' k) as [-> | Hne].
      * rewrite (@group_of_above k ((k0, rs) :: gs)).
        -- unfold group_of. simpl. rewrite Z.eqb_refl. reflexivity.
        -- constructor; [exact Hlt |].
           eapply Forall_impl; [| exact Hall]. simpl. intros g Hg. lia.
      * unfold group_of. simpl.
        destruct (Z.eqb_spec k' k); [contradiction | reflexivity].
    + destruct (Z.eqb_spec k' k0) as [-> | Hne0].
      * unfold group_of. simpl.
        destruct (Z.eqb_spec k0 k); reflexivity.
      * unfold group_of in *. simpl.
        destruct (Z.eqb_spec k0 k) as [-> | Hne1].
        -- destruct (Z.eqb_spec k' k); [contradiction | reflexivity].
        -- exact IH.
Qed.

Lemma group_step_ascending (gs : list (Z * list A)) (r : A) :
  ascending gs -> ascending (group_step key gs r).
Proof.
  unfold group_step. destruct (key r); [apply group_insert_ascending | trivial].
Qed.

Lemma fold_group_step_ascending (rows : list A) (gs : list (Z * list A)) :
  ascending gs -> ascending (fold_left (group_step key) rows gs).
Proof.
  revert gs. induction rows as [| r rows IH]; simpl; intros gs Hgs.
  - exact Hgs.
  - apply IH, group_step_ascending, Hgs.
Qed.

Lemma fold_group_step_group_of (k : Z) (rows : list A) (gs : list (Z * list A)) :
  ascending gs ->
  group_of k (fold_left (group_step key) rows gs) =
  group_of k gs ++ filter (has_key key k) rows.
Proof.
  revert gs. induction rows as [| r rows IH]; simpl; intros gs Hgs.
  - rewrite app_nil_r. reflexivity.
  - rewrite IH by (apply group_step_ascending, Hgs).
    unfold group_step, has_key. destruct (key r) as [k' |].
    + rewrite group_of_insert by exact Hgs.
      destruct (k' =? k)%Z; [rewrite <- app_assoc |]; reflexivity.
    + reflexivity.
Qed.

Lemma group_insert_nonempty (k : Z) (r : A) (gs : list (Z * list A)) :
  Forall (fun g => snd g <> []) gs ->
  Forall (fun g => snd g <> []) (group_insert k r gs).
Proof.
  induction 1 as [| [k' rs] gs Hg Hgs IH]; simpl.
  - constructor; [simpl; discriminate | constructor].
  - destruct (k <? k')%Z.
    + constructor; [simpl; discriminate | constructor; assumption].
    + destruct (k =? k')%Z; constructor; try assumption.
      simpl. intros Habs. apply app_eq_nil in Habs. destruct Habs; discriminate.
Qed.

Lemma fold_group_step_nonempty (rows : list A) (gs : list (Z * list A)) :
  Forall (fun g => snd g <> []) gs ->
  Forall (fun g => snd g <> []) (fold_left (group_step key) rows gs).
Proof.
  revert gs. induction rows as [| r rows IH]; simpl; intros gs Hgs.
  - exact Hgs.
  - apply IH. unfold group_step.
    destruct (key r); [apply group_insert_nonempty |]; exact Hgs.
Qed.

Lemma ascending_In_group_of (gs : list (Z * list A)) (k : Z) (g : list A) :
  ascending gs -> In (k, g) gs -> group_of k gs = g.
Proof.
  unfold ascending, group_of. induction 1 as [| [k0 rs] gs Hs IH Hall]; simpl.
  - contradiction.
  - intros [Heq | Hin].
    + injection Heq as -> ->. rewrite Z.eqb_refl. reflexivity.
    + destruct (Z.eqb_spec k0 k) as [-> | Hne].
      * rewrite Forall_forall in Hall. apply Hall in Hin. simpl in Hin. lia.
      * apply IH, Hin.
Qed.

Lemma group_of_In (gs : list (Z * list A)) (k : Z) :
  group_of k gs <> [] -> In (k, group_of k gs) gs.
Proof.
  unfold group_of. induction gs as [| [k0 rs] gs IH]; simpl.
  - intros H. contradiction H. reflexivity.
  - destruct (Z.eqb_spec k0 k) as [-> | Hne]; simpl.
    + intros _. left. reflexivity.
    + intros H. right. apply IH, H.
Qed.

(** The groups of [groupby] are the non-empty key classes of the frame. *)
Lemma groupby_spec (rows : list A) (k : Z) (g : list A) :
  In (k, g) (groupby key rows) <-> g = filter (has_key key k) rows /\ g <> [].
Proof.
  unfold groupby.
  assert (Hasc : ascending (fold_left (group_step key) rows [])).
  { apply fold_group_step_ascending. constructor. }
  assert (Hne : Forall (fun g => snd g <> []) (fold_left (group_step key) rows [])).
  { apply fold_group_step_nonempty. constructor. }
  assert (Hof := @fold_group_step_group_of k rows [] (SSorted_nil _)).
  change (group_of k [] ++ filter (has_key key k) rows) with (filter (has_key key k) rows) in Hof.
  split.
  - intros Hin. rewrite <- Hof. split.
    + symmetry. apply ascending_In_group_of; assumption.
    + rewrite Forall_forall in Hne. apply (Hne _ Hin).
  - intros [-> Hg]. rewrite <- Hof. apply group_of_In. rewrite Hof. exact Hg.
Qed.

Lemma groupby_ascending (rows : list A) : ascending (groupby key rows).
Proof. apply fold_group_step_ascending. constructor. Qed.
End GroupByFacts.

(** ** mean *)

Lemma fold_mean_step (vs : list float) (s : Q) (n : nat) :
  fst (fold_left mean_step vs (s, n)) == s + Qsum (numbers vs) /\
  snd (fold_left mean_step vs (s, n)) = (n + List.length (numbers vs))%nat.
Proof.
  revert s n. induction vs as [| [q |] vs IH]; intros s n; simpl.
  - split; [ring | lia].
  - destruct (IH (s + q) (S n)) as [Hs Hn]. split.
    + rewrite Hs. ring.
    + rewrite Hn. lia.
  - apply IH.
Qed.

Lemma mean_no_number (vs : list float) : numbers vs = [] -> mean vs = NaN.
Proof.
  intros Hnone. unfold mean.
  destruct (fold_mean_step vs 0 0) as [_ Hn]. rewrite Hnone in Hn. simpl in Hn.
  rewrite Hn. reflexivity.
Qed.

Lemma mean_arithmetic (vs : list float) :
  numbers vs <> [] ->
  exists m, mean vs = Some m /\ m == arithmetic_mean (numbers vs).
Proof.
  intros Hsome. unfold mean.
  destruct (fold_mean_step vs 0 0) as [Hs Hn]. simpl in Hn.
  destruct (snd (fold_left mean_step vs (0, 0%nat))) as [| c] eqn:Hc.
  - destruct (numbers vs); [contradiction Hsome; reflexivity | discriminate Hn].
  - eexists. split; [reflexivity |].
    unfold arithmetic_mean. rewrite Hs, Hn. rewrite Qplus_0_l. reflexivity.
Qed.

Lemma mean_is_mean_of (vs : list float) : is_mean_of (mean vs) vs.
Proof.
  unfold is_mean_of. destruct (numbers vs) as [| q qs] eqn:Hq.
  - rewrite (mean_no_number vs Hq). exact I.
  - destruct (mean_arithmetic vs) as [m [-> Hm]]; [rewrite Hq; discriminate |].
    rewrite Hq in Hm.
    setoid_replace (m - arithmetic_mean (q :: qs)) with 0 by (rewrite Hm; ring).
    unfold tolerance. discriminate.
Qed.

(** ** unique *)

Lemma same_value_spec (a b : option string) : same_value a b = true <-> a = b.
Proof.
  destruct a as [s |], b as [t |]; simpl; split; intros H;
    try discriminate H; try reflexivity.
  - apply String.eqb_eq in H. subst. reflexivity.
  - injection H as ->. apply String.eqb_refl.
Qed.

Lemma same_value_refl (a : option string) : same_value a a = true.
Proof. apply same_value_spec. reflexivity. Qed.

Lemma same_value_sym (a b : option string) : same_value a b = same_value b a.
Proof.
  destruct (same_value a b) eqn:Hab; symmetry.
  - apply same_value_spec. symmetry. apply same_value_spec, Hab.
  - destruct (same_value b a) eqn:Hba; [| reflexivity].
    apply same_value_spec in Hba. subst. rewrite same_value_refl in Hab.
    discriminate Hab.
Qed.

Lemma existsb_same_value (v : option string) (l : list (option string)) :
  existsb (same_value v) l = true <-> In v l.
Proof.
  rewrite existsb_exists. split.
  - intros [w [Hin Hw]]. apply same_value_spec in Hw. subst. exact Hin.
  - intros Hin. exists v. split; [exact Hin | apply same_value_refl].
Qed.

Lemma filter_filter_absorb {A : Type} (p q : A -> bool) (l : list A) :
  (forall a, p a = true -> q a = true) ->
  filter p (filter q l) = filter p l.
Proof.
  intros Hpq. induction l as [| a l IH]; simpl.
  - reflexivity.
  - destruct (q a) eqn:Hq; simpl.
    + rewrite IH. reflexivity.
    + destruct (p a) eqn:Hp.
      * rewrite (Hpq a Hp) in Hq. discriminate Hq.
      * exact IH.
Qed.

Lemma filter_filter_and {A : Type} (p q : A -> bool) (l : list A) :
  filter p (filter q l) = filter (fun a => q a && p a) l.
Proof.
  induction l as [| a l IH]; simpl.
  - reflexivity.
  - destruct (q a); simpl; [destruct (p a) |]; rewrite IH; reflexivity.
Qed.

(** Starting with a fuller hash table only removes the values it holds. *)
Lemma unique_from_app (s1 s2 col : list (option string)) :
  unique_from (s1 ++ s2) col = filter (unseen s1) (unique_from s2 col).
Proof.
  revert s1 s2. induction col as [| v col IH]; intros s1 s2; simpl.
  - reflexivity.
  - rewrite existsb_app.
    destruct (existsb (same_value v) s2) eqn:H2.
    + rewrite orb_true_r. apply IH.
    + rewrite orb_false_r. simpl. unfold unseen at 1.
      destruct (existsb (same_value v) s1) eqn:H1; simpl.
      * rewrite IH. change (v :: s2) with ([v] ++ s2). rewrite (IH [v] s2).
        symmetry. apply filter_filter_absorb.
        intros a Ha. unfold unseen in *. simpl. rewrite orb_false_r.
        destruct (same_value a v) eqn:Hav; [| reflexivity].
        apply same_value_spec in Hav. subst a. rewrite H1 in Ha. discriminate Ha.
      * f_equal. change (v :: s1 ++ s2) with ((v :: s1) ++ s2).
        rewrite IH. change (v :: s2) with ([v] ++ s2). rewrite (IH [v] s2).
        rewrite filter_filter_and. apply filter_ext. intros a.
        unfold unseen. simpl. rewrite orb_false_r.
        destruct (same_value a v); reflexivity.
Qed.

(** The recursion that [unique] obeys. *)
Lemma unique_cons (v : option string) (col : list (option string)) :
  unique (v :: col) = v :: filter (fun w => negb (same_value w v)) (unique col).
Proof.
  unfold unique. simpl. f_equal.
  change (unique_from [v] col) with (unique_from ([v] ++ []) col).
  rewrite (unique_from_app [v] [] col).
  apply filter_ext. intros a. unfold unseen. simpl. rewrite orb_false_r. reflexivity.
Qed.

Lemma unique_In (col : list (option string)) (v : option string) :
  In v (unique col) <-> In v col.
Proof.
  induction col as [| w col IH].
  - reflexivity.
  - rewrite unique_cons. simpl. rewrite filter_In, IH. split.
    + intros [H | [H _]]; [left | right]; assumption.
    + intros [H | H]; [left; assumption |].
      destruct (same_value v w) eqn:Hvw.
      * left. symmetry. apply same_value_spec, Hvw.
      * right. split; [assumption | reflexivity].
Qed.

Lemma NoDup_filter {A : Type} (p : A -> bool) (l : list A) :
  NoDup l -> NoDup (filter p l).
Proof.
  induction 1 as [| a l Hnotin _ IH]; simpl.
  - constructor.
  - destruct (p a); [| exact IH].
    constructor; [| exact IH].
    intros Hin. apply filter_In in Hin. apply Hnotin, Hin.
Qed.

Lemma unique_NoDup (col : list (option string)) : NoDup (unique col).
Proof.
  induction col as [| w col IH].
  - constructor.
  - rewrite unique_cons. constructor.
    + intros Hin. apply filter_In in Hin. destruct Hin as [_ Hin].
      rewrite same_value_refl in Hin. discriminate Hin.
    + apply NoDup_filter, IH.
Qed.

(** Filtering keeps the order in which the remaining values are met. *)
Lemma first_index_filter (p : option string -> bool) (l : list (option string))
      (a b : option string) :
  p a = true -> p b = true -> In a l -> In b l ->
  (first_index a (filter p l) < first_index b (filter p l))%nat <->
  (first_index a l < first_index b l)%nat.
Proof.
  intros Hpa Hpb. induction l as [| w l IH]; simpl; intros Ha Hb.
  - contradiction.
  - destruct (same_value w a) eqn:Hwa.
    + apply same_value_spec in Hwa. subst w. rewrite Hpa. simpl.
      rewrite same_value_refl. destruct (same_value a b); lia.
    + destruct (same_value w b) eqn:Hwb.
      * apply same_value_spec in Hwb. subst w. rewrite Hpb. simpl.
        rewrite Hwa, same_value_refl. lia.
      * assert (Ha' : In a l).
        { destruct Ha as [-> | Ha]; [| exact Ha].
          rewrite same_value_refl in Hwa. discriminate Hwa. }
        assert (Hb' : In b l).
        { destruct Hb as [-> | Hb]; [| exact Hb].
          rewrite same_value_refl in Hwb. discriminate Hwb. }
        specialize (IH Ha' Hb').
        destruct (p w); simpl; [rewrite Hwa, Hwb |]; lia.
Qed.

Lemma unique_first_index (col : list (option string)) (a b : option string) :
  In a col -> In b col ->
  (first_index a (unique col) < first_index b (unique col))%nat <->
  (first_index a col < first_index b col)%nat.
Proof.
  induction col as [| w col IH]; intros Ha Hb.
  - contradiction.
  - rewrite unique_cons. simpl.
    destruct (same_value w a) eqn:Hwa.
    + destruct (same_value w b); lia.
    + destruct (same_value w b) eqn:Hwb; [lia |].
      assert (Ha' : In a col).
      { destruct Ha as [-> | Ha]; [| exact Ha].
        rewrite same_value_refl in Hwa. discriminate Hwa. }
      assert (Hb' : In b col).
      { destruct Hb as [-> | Hb]; [| exact Hb].
        rewrite same_value_refl in Hwb. discriminate Hwb. }
      specialize (IH Ha' Hb').
      assert (Hf := @first_index_filter (fun v => negb (same_value v w))
                      (unique col) a b).
      cbv beta in Hf.
      rewrite (same_value_sym a w), Hwa, (same_value_sym b w), Hwb in Hf.
      specialize (Hf eq_refl eq_refl (proj2 (unique_In col a) Ha')
                     (proj2 (unique_In col b) Hb')).
      lia.
Qed.

(** C5.  The option list of the warehouse selector holds every value of the
    [warehouse_name] column, each exactly once, and a value stands before
    another one exactly when it is met first in the column. *)
Theorem warehouses_distinct_by_first_appearance (df : list Row) :
  NoDup (warehouses df) /\
  (forall v, In v (warehouses df) <-> In v (map warehouse_name df)) /\
  (forall a b, In a (map warehouse_name df) -> In b (map warehouse_name df) ->
     (first_index a (warehouses df) < first_index b (warehouses df))%nat <->
     (first_index a (map warehouse_name df) < first_index b (map warehouse_name df))%nat).
Proof.
  unfold warehouses. split; [| split].
  - apply unique_NoDup.
  - intros v. apply unique_In.
  - intros a b. apply unique_first_index.
Qed.

(** ** Ingestion *)

Section IngestionFacts.
Variable py_float : string -> option float.

Lemma astype_float_cell_inl (c : Cell) (e : Error) :
  astype_float_cell py_float c = inl e ->
  e = ValueError /\ non_numeric py_float c = true.
Proof.
  destruct c as [q | | s]; simpl; try discriminate.
  destruct (py_float s); [discriminate |].
  intros H. injection H as <-. split; reflexivity.
Qed.






Lemma ingest_inr (raw : list RawRow) (df : list Row) :
  ingest py_float raw = inr df ->
  exists lat lon wlat wlon dkm dwh,
    astype_float py_float (map raw_latitude raw) = inr lat /\
    astype_float py_float (map raw_longitude raw) = inr lon /\
    astype_float py_float (map raw_wh_lat raw) = inr wlat /\
    astype_float py_float (map raw_wh_long raw) = inr wlon /\
    astype_float py_float (map raw_distance_km raw) = inr dkm /\
    astype_float py_float (map raw_dist_from_wh raw) = inr dwh /\
    df = rows_from (coerced_row lat lon wlat wlon dkm dwh) 0 raw.
Proof.
  unfold ingest. intros H.
  apply bind_inr in H. destruct H as [lat [H1 H]].
  apply bind_inr in H. destruct H as [lon [H2 H]].
  apply bind_inr in H. destruct H as [wlat [H3 H]].
  apply bind_inr in H. destruct H as [wlon [H4 H]].
  apply bind_inr in H. destruct H as [dkm [H5 H]].
  apply bind_inr in H. destruct H as [dwh [H6 H]].
  injection H as <-.
  exists lat, lon, wlat, wlon, dkm, dwh. repeat split; assumption.
Qed.


Lemma astype_float_inl (f : RawRow -> Cell) (raw : list RawRow) (e : Error) :
  astype_float py_float (map f raw) = inl e ->
  e = ValueError /\ exists r, In r raw /\ non_numeric py_float (f r) = true.
Proof.
  intros H. apply mapM_inl in H. destruct H as [c [Hin Hc]].
  apply astype_float_cell_inl in Hc. destruct Hc as [-> Hc].
  apply in_map_iff in Hin. destruct Hin as [r [<- Hr]].
  split; [reflexivity |]. exists r. split; assumption.
Qed.

Lemma ingest_inl (raw : list RawRow) (e : Error) :
  ingest py_float raw = inl e ->
  e = ValueError /\
  Exists (fun r => Exists (fun c => non_numeric py_float c = true) (six_cells r)) raw.
Proof.
  unfold ingest. intros H.
  repeat (apply bind_inl in H; destruct H as [H | [? [_ H]]];
          [apply astype_float_inl in H; destruct H as [-> [r [Hr Hc]]];
           split; [reflexivity |];
           apply Exists_exists; exists r; split; [exact Hr |];
           apply Exists_exists; eexists; split; [| exact Hc];
           unfold six_cells; simpl; tauto |]).
  discriminate H.
Qed.
End IngestionFacts.

Section PartnerGmv.
Variable py_float : string -> option float.

Lemma same_but_partner_gmv_columns (raw raw' : list RawRow) :
  Forall2 same_but_partner_gmv raw raw' ->
  map raw_latitude raw = map raw_latitude raw' /\
  map raw_longitude raw = map raw_longitude raw' /\
  map raw_wh_lat raw = map raw_wh_lat raw' /\
  map raw_wh_long raw = map raw_wh_long raw' /\
  map raw_distance_km raw = map raw_distance_km raw' /\
  map raw_dist_from_wh raw = map raw_dist_from_wh raw'.
Proof.
  induction 1 as [| r r' raw raw' Hr _ IH]; simpl.
  - repeat split.
  - destruct Hr as [Hsix _]. unfold six_cells in Hsix.
    injection Hsix as -> -> -> -> -> ->.
    destruct IH as (-> & -> & -> & -> & -> & ->). repeat split.
Qed.

Lemma ingest_same_outcome (raw raw' : list RawRow) :
  Forall2 same_but_partner_gmv raw raw' ->
  match ingest py_float raw, ingest py_float raw' with
  | inl e, inl e' => e = e'
  | inr _, inr _ => True
  | _, _ => False
  end.
Proof.
  intros H. apply same_but_partner_gmv_columns in H.
  destruct H as (H1 & H2 & H3 & H4 & H5 & H6).
  unfold ingest. rewrite H1, H2, H3, H4, H5, H6.
  destruct (astype_float py_float (map raw_latitude raw')); simpl; [reflexivity |].
  destruct (astype_float py_float (map raw_longitude raw')); simpl; [reflexivity |].
  destruct (astype_float py_float (map raw_wh_lat raw')); simpl; [reflexivity |].
  destruct (astype_float py_float (map raw_wh_long raw')); simpl; [reflexivity |].
  destruct (astype_float py_float (map raw_distance_km raw')); simpl; [reflexivity |].
  destruct (astype_float py_float (map raw_dist_from_wh raw')); simpl; [reflexivity |].
  exact I.
Qed.

Lemma rows_from_partner_gmv (lat lon wlat wlon dkm dwh : list float) (i : nat)
      (raw : list RawRow) :
  map partner_gmv (rows_from (coerced_row lat lon wlat wlon dkm dwh) i raw) =
  map raw_partner_gmv raw.
Proof.
  revert i. induction raw as [| r raw IH]; intros i; simpl.
  - reflexivity.
  - rewrite IH. reflexivity.
Qed.

Lemma present_not_raised (df : list Row) (choice : nat) (e : Error) :
  present df choice <> inr (Raised e).
Proof.
  unfold present.
  destruct (wh_data df (selectbox (warehouses df) choice)) as [| first rest].
  - discriminate.
  - destruct (cluster_data (first :: rest)); simpl; [discriminate |].
    destruct (cluster_summary (first :: rest)); simpl; [discriminate |].
    destruct (render (wh_coordinate first) (first :: rest) l); simpl; discriminate.
Qed.
End PartnerGmv.

(** C10.  Whatever the [partner_gmv] column holds, ingestion ends the same
    way: two uploads that differ in that column alone both succeed or both
    fail with the same error; on success the column is handed on as it was
    read; and an exception shown for an upload is either that of ingestion
    or one raised after it, while aggregating or rendering. *)
Theorem partner_gmv_not_coerced (py_float : string -> option float)
        (raw raw' : list RawRow)
        (Hsame : Forall2 same_but_partner_gmv raw raw') :
  (forall e, ingest py_float raw = inl e <-> ingest py_float raw' = inl e) /\
  ((exists df, ingest py_float raw = inr df) <->
   (exists df', ingest py_float raw' = inr df')) /\
  (forall df, ingest py_float raw = inr df ->
              map partner_gmv df = map raw_partner_gmv raw) /\
  (forall choice e,
      script py_float (Some raw) choice = Raised e ->
      ingest py_float raw = inl e \/
      exists df, ingest py_float raw = inr df /\ present df choice = inl e).
Proof.
  assert (Hout := ingest_same_outcome py_float Hsame).
  split; [| split; [| split]].
  - intros e.
    destruct (ingest py_float raw) as [e1 | df], (ingest py_float raw') as [e2 | df'];
      try contradiction; subst; split; intros H; try discriminate H; exact H.
  - destruct (ingest py_float raw) as [e1 | df], (ingest py_float raw') as [e2 | df'];
      try contradiction.
    + split; intros [x Hx]; discriminate Hx.
    + split; intros _; eexists; reflexivity.
  - intros df H. apply ingest_inr in H.
    destruct H as (lat & lon & wlat & wlon & dkm & dwh & _ & _ & _ & _ & _ & _ & ->).
    apply rows_from_partner_gmv.
  - intros choice e. unfold script.
    destruct (ingest py_float raw) as [e1 | df]; simpl.
    + intros H. injection H as ->. left. reflexivity.
    + intros H. right. exists df. split; [reflexivity |].
      destruct (present df choice) as [e2 | p] eqn:Hp; simpl in H.
      * injection H as ->. reflexivity.
      * subst p. exfalso. exact (present_not_raised _ _ Hp).
Qed.

(** ** Aggregation *)

Lemma sum_bool_map {A : Type} (p : A -> bool) (l : list A) :
  sum_bool (map p l) = List.length (filter p l).
Proof.
  unfold sum_bool. induction l as [| a l IH]; simpl.
  - reflexivity.
  - destruct (p a); simpl; rewrite IH; reflexivity.
Qed.

Lemma filter_comm {A : Type} (p q : A -> bool) (l : list A) :
  filter p (filter q l) = filter q (filter p l).
Proof.
  rewrite !filter_filter_and. apply filter_ext. intros a. apply andb_comm.
Qed.

Lemma filter_length_le {A : Type} (p : A -> bool) (l : list A) :
  (List.length (filter p l) <= List.length l)%nat.
Proof.
  induction l as [| a l IH]; simpl; [lia |]. destruct (p a); simpl; lia.
Qed.

Lemma filter_length_all {A : Type} (p : A -> bool) (l : list A) :
  List.length (filter p l) = List.length l <-> Forall (fun a => p a = true) l.
Proof.
  induction l as [| a l IH]; simpl.
  - split; [constructor | reflexivity].
  - destruct (p a) eqn:Hp; simpl.
    + split.
      * intros H. constructor; [exact Hp | apply IH; lia].
      * intros H. inversion H; subst. f_equal. apply IH. assumption.
    + split.
      * intros H. pose proof (filter_length_le p l). lia.
      * intros H. inversion H; subst. congruence.
  Qed.

(** The two recognised statuses exclude one another, so the two
    [list.count] add up to the number of recognised statuses. *)
Lemma list_count_recognised (l : list (option string)) :
  (list_count "Transacting" l + list_count "Non-Transacting" l)%nat =
  List.length (filter recognised l).
Proof.
  induction l as [| s l IH]; simpl.
  - reflexivity.
  - unfold recognised at 1.
    destruct (str_eq "Transacting" s) eqn:Ht; simpl.
    + destruct s as [s |]; simpl in *; [| discriminate Ht].
      apply String.eqb_eq in Ht. subst s. simpl. rewrite <- IH. lia.
    + destruct (str_eq "Non-Transacting" s); simpl; rewrite <- IH; lia.
Qed.

Lemma count_notna_map {A : Type} (f : A -> option string) (l : list A) :
  count_notna (map f l) =
  List.length (filter (fun a => match f a with Some _ => true | None => false end) l).
Proof.
  unfold count_notna. induction l as [| a l IH]; simpl.
  - reflexivity.
  - destruct (f a); simpl; rewrite IH; reflexivity.
Qed.

(** Each row of [cluster_data] is built from one group of the subset. *)
Lemma cluster_data_rows (wh : list Row) (tbl : list ClusterRow) :
  cluster_data wh = inr tbl ->
  Forall2 (fun g row => exists a, centroid_agg g = inr a /\ row = add_counts a)
          (groupby k_means wh) tbl.
Proof.
  unfold cluster_data. intros H. bind_inv H. injection H as <-.
  apply mapM_Forall2 in Ha.
  induction Ha as [| g b gs bs Hg _ IH]; simpl; constructor.
  - exists b. split; [exact Hg | reflexivity].
  - exact IH.
Qed.

Lemma centroid_agg_inr (g : Z * list Row) (a : CentroidAgg) :
  centroid_agg g = inr a ->
  ca_k_means a = fst g /\
  ca_latitude a = mean (map latitude (snd g)) /\
  ca_longitude a = mean (map longitude (snd g)) /\
  sum_cells (map partner_gmv (snd g)) = inr (ca_partner_gmv a) /\
  ca_distance_km a = mean (map distance_km (snd g)) /\
  ca_customer_id a = count_notna (map customer_id (snd g)) /\
  ca_cx_status a = map cx_status (snd g).
Proof.
  unfold centroid_agg. intros H. bind_inv H. injection H as <-. simpl.
  repeat split. exact Ha.
Qed.

(** A row of [cluster_data] and the member rows it stands for. *)
Lemma cluster_data_row_members (wh : list Row) (tbl : list ClusterRow)
      (row : ClusterRow) :
  cluster_data wh = inr tbl -> In row tbl ->
  let members := cluster_rows (ca_k_means (cd_agg row)) wh in
  members <> [] /\
  centroid_agg (ca_k_means (cd_agg row), members) = inr (cd_agg row) /\
  row = add_counts (cd_agg row).
Proof.
  intros H Hin. apply cluster_data_rows in H.
  destruct (Forall2_In_r row H Hin) as [[k g] [Hg [a [Ha ->]]]].
  apply groupby_spec in Hg. destruct Hg as [Hg Hne].
  simpl. pose proof (centroid_agg_inr _ Ha) as [Hk _]. simpl in Hk.
  rewrite Hk. unfold cluster_rows. rewrite <- Hg.
  split; [exact Hne | split; [exact Ha | reflexivity]].
Qed.

(** Every cluster of the subset has its row in [cluster_data]. *)
Lemma cluster_data_covers (wh : list Row) (tbl : list ClusterRow) (k : Z) :
  cluster_data wh = inr tbl -> cluster_rows k wh <> [] ->
  exists row, In row tbl /\ ca_k_means (cd_agg row) = k.
Proof.
  intros H Hne. apply cluster_data_rows in H.
  assert (Hg : In (k, cluster_rows k wh) (groupby k_means wh)).
  { apply groupby_spec. split; [reflexivity | exact Hne]. }
  destruct (Forall2_In_l _ H Hg) as [row [Hrow [a [Ha ->]]]].
  exists (add_counts a). split; [exact Hrow |].
  simpl. apply (centroid_agg_inr _ Ha).
Qed.

(** C3, as the code has it.  For every row of the centroid table the two
    status counts add up to at most the number of member rows of the
    cluster, with equality exactly when every member row has one of the two
    recognised statuses.  The count column of the table counts the member
    rows that have a [customer_id]: it is at most the number of member
    rows, and equal to it exactly when no member row lacks its
    [customer_id]. *)
Theorem status_counts_within_member_rows (wh : list Row) (tbl : list ClusterRow)
        (H : cluster_data wh = inr tbl) (row : ClusterRow) (Hin : In row tbl) :
  let members := cluster_rows (ca_k_means (cd_agg row)) wh in
  (cd_transacting_count row + cd_non_transacting_count row
   <= List.length members)%nat /\
  ((cd_transacting_count row + cd_non_transacting_count row)%nat
   = List.length members <->
   Forall (fun r => recognised (cx_status r) = true) members) /\
  (ca_customer_id (cd_agg row) <= List.length members)%nat /\
  (ca_customer_id (cd_agg row) = List.length members <->
   Forall (fun r => customer_id r <> None) members).
Proof.
  intros members.
  destruct (@cluster_data_row_members _ _ row H Hin) as (_ & Hagg & Hrow).
  fold members in Hagg. apply centroid_agg_inr in Hagg. simpl in Hagg.
  destruct Hagg as (_ & _ & _ & _ & _ & Hcount & Hstatus).
  rewrite Hrow. simpl. rewrite Hstatus, Hcount.
  rewrite list_count_recognised, count_notna_map.
  rewrite <- (length_map cx_status members) at 1 2.
  split; [apply filter_length_le | split; [| split]].
  - rewrite filter_length_all, Forall_map. reflexivity.
  - apply filter_length_le.
  - rewrite filter_length_all. rewrite !Forall_forall.
    split; intros Hall r Hr; specialize (Hall r Hr);
      destruct (customer_id r); congruence.
Qed.

Lemma cluster_summary_rows (wh : list Row) (tbl : list SummaryRow) :
  cluster_summary wh = inr tbl ->
  Forall2 (fun g row => summary_agg wh g = inr row) (groupby k_means wh) tbl.
Proof. apply mapM_Forall2. Qed.

Lemma summary_agg_inr (wh : list Row) (g : Z * list Row) (row : SummaryRow) :
  summary_agg wh g = inr row ->
  cs_k_means row = fst g /\
  transacting_count row =
    sum_bool (map (str_eq "Transacting") (map cx_status (snd g))) /\
  non_transacting_count row =
    sum_bool (map (str_eq "Non-Transacting") (map cx_status (snd g))) /\
  (exists sel, select_status wh "Transacting" partner_gmv (snd g) = inr sel /\
               mean_cells sel = inr (avg_pgmv_transacting row)) /\
  (exists sel, select_status wh "Non-Transacting" partner_gmv (snd g) = inr sel /\
               mean_cells sel = inr (avg_pgmv_nontransacting row)) /\
  (exists sel, select_status wh "Transacting" dist_from_wh (snd g) = inr sel /\
               avg_dist_transacting row = mean sel) /\
  (exists sel, select_status wh "Non-Transacting" dist_from_wh (snd g) = inr sel /\
               avg_dist_nontransacting row = mean sel).
Proof.
  unfold summary_agg. intros H.
  apply bind_inr in H. destruct H as [pt [Hpt H]].
  apply bind_inr in H. destruct H as [apt [Hapt H]].
  apply bind_inr in H. destruct H as [pn [Hpn H]].
  apply bind_inr in H. destruct H as [apn [Hapn H]].
  apply bind_inr in H. destruct H as [dt [Hdt H]].
  apply bind_inr in H. destruct H as [dn [Hdn H]].
  injection H as <-. simpl.
  repeat split; eexists; split; try eassumption; reflexivity.
Qed.

(** A row of [cluster_summary] and the member rows it stands for. *)
Lemma cluster_summary_row_members (wh : list Row) (tbl : list SummaryRow)
      (row : SummaryRow) :
  cluster_summary wh = inr tbl -> In row tbl ->
  cluster_rows (cs_k_means row) wh <> [] /\
  summary_agg wh (cs_k_means row, cluster_rows (cs_k_means row) wh) = inr row.
Proof.
  intros H Hin. apply cluster_summary_rows in H.
  destruct (Forall2_In_r row H Hin) as [[k g] [Hg Hrow]].
  apply groupby_spec in Hg. destruct Hg as [Hg Hne].
  pose proof (summary_agg_inr _ _ Hrow) as [Hk _]. simpl in Hk.
  rewrite Hk. unfold cluster_rows. rewrite <- Hg. split; assumption.
Qed.

Lemma cluster_summary_covers (wh : list Row) (tbl : list SummaryRow) (k : Z) :
  cluster_summary wh = inr tbl -> cluster_rows k wh <> [] ->
  exists row, In row tbl /\ cs_k_means row = k.
Proof.
  intros H Hne. apply cluster_summary_rows in H.
  assert (Hg : In (k, cluster_rows k wh) (groupby k_means wh)).
  { apply groupby_spec. split; [reflexivity | exact Hne]. }
  destruct (Forall2_In_l _ H Hg) as [row [Hrow Hagg]].
  exists row. split; [exact Hrow |]. apply (summary_agg_inr _ _ Hagg).
Qed.

(** C2.  Every cluster of a warehouse subset has its row in the summary
    table, and the two counts of a row are the numbers of rows that a
    filter of the subset on [cx_status] (the customer layers of the map) and
    on the cluster finds. *)
Theorem summary_counts_match_status_filter (wh : list Row) (tbl : list SummaryRow)
        (H : cluster_summary wh = inr tbl) (k : Z) :
  (cluster_rows k wh <> [] -> exists row, In row tbl /\ cs_k_means row = k) /\
  (forall row, In row tbl -> cs_k_means row = k ->
     transacting_count row = List.length (cluster_rows k (transacting wh)) /\
     non_transacting_count row = List.length (cluster_rows k (non_transacting wh))).
Proof.
  split.
  - intros Hne. exact (@cluster_summary_covers _ _ k H Hne).
  - intros row Hin Hk.
    destruct (@cluster_summary_row_members _ _ row H Hin) as [_ Hagg].
    rewrite Hk in Hagg. apply summary_agg_inr in Hagg. simpl in Hagg.
    destruct Hagg as (_ & Ht & Hn & _). rewrite Ht, Hn.
    rewrite !map_map, !sum_bool_map.
    unfold cluster_rows, transacting, non_transacting, with_status.
    rewrite (filter_comm (has_key k_means k)), (filter_comm (has_key k_means k)).
    split; reflexivity.
Qed.

(** ** The index and [.loc] *)

Lemma rows_from_idx (mk : nat -> RawRow -> Row) (i : nat) (raw : list RawRow) :
  (forall j r, idx (mk j r) = j) ->
  map idx (rows_from mk i raw) = seq i (List.length raw).
Proof.
  intros Hmk. revert i. induction raw as [| r raw IH]; intros i; simpl.
  - reflexivity.
  - rewrite Hmk, IH. reflexivity.
Qed.

(** [read_csv] labels the rows 0, 1, 2, ... *)
Lemma ingest_range_index (py_float : string -> option float)
      (raw : list RawRow) (df : list Row) :
  ingest py_float raw = inr df -> map idx df = seq 0 (List.length raw).
Proof.
  intros H. apply ingest_inr in H.
  destruct H as (lat & lon & wlat & wlon & dkm & dwh & _ & _ & _ & _ & _ & _ & ->).
  apply rows_from_idx. reflexivity.
Qed.

(** A boolean mask keeps the labels distinct. *)
Lemma filter_unique_index (mask : Row -> bool) (rows : list Row) :
  NoDup (map idx rows) -> NoDup (map idx (filter mask rows)).
Proof.
  induction rows as [| r rows IH]; simpl; intros Hnd.
  - constructor.
  - inversion Hnd as [| ? ? Hfresh Hrest]; subst.
    destruct (mask r); simpl; [| apply IH, Hrest].
    constructor; [| apply IH, Hrest].
    intros Hin. apply Hfresh. apply in_map_iff in Hin.
    destruct Hin as [r' [Hlabel Hr']]. apply filter_In in Hr'.
    apply in_map_iff. exists r'. split; [exact Hlabel | apply Hr'].
Qed.

Lemma wh_data_unique_index (py_float : string -> option float)
      (raw : list RawRow) (df : list Row) (W : option string) :
  ingest py_float raw = inr df -> NoDup (map idx (wh_data df W)).
Proof.
  intros H. apply filter_unique_index.
  rewrite (ingest_range_index _ _ H). apply seq_NoDup.
Qed.

Lemma loc_cx_status_own (wh : list Row) (r : Row) :
  NoDup (map idx wh) -> In r wh -> loc_cx_status wh (idx r) = inr (cx_status r).
Proof.
  unfold loc_cx_status. induction wh as [| r0 wh IH]; simpl; intros Hnd Hin.
  - contradiction.
  - inversion Hnd as [| ? ? Hnotin Hrest]; subst.
    destruct Hin as [-> | Hin].
    + rewrite Nat.eqb_refl. reflexivity.
    + destruct (Nat.eqb_spec (idx r0) (idx r)) as [Heq | Hne].
      * exfalso. apply Hnotin. rewrite Heq. apply in_map, Hin.
      * apply IH; assumption.
Qed.

Lemma boolean_index_map {A B : Type} (col : A -> B) (p : A -> bool) (g : list A) :
  boolean_index (map col g) (map p g) = map col (filter p g).
Proof.
  induction g as [| a g IH]; simpl.
  - reflexivity.
  - destruct (p a); simpl; rewrite IH; reflexivity.
Qed.

Lemma mapM_ext_in {A B : Type} (f : A -> result B) (h : A -> B) (l : list A) :
  (forall a, In a l -> f a = inr (h a)) -> mapM f l = inr (map h l).
Proof.
  induction l as [| a l IH]; simpl; intros H.
  - reflexivity.
  - rewrite (H a (or_introl eq_refl)). simpl.
    rewrite IH by (intros; apply H; right; assumption). reflexivity.
Qed.

(** With distinct labels the mask taken through [.loc] is the mask of the
    group's own statuses. *)
Lemma select_status_own {A : Type} (wh : list Row) (lit : string)
      (col : Row -> A) (g : list Row) :
  NoDup (map idx wh) -> incl g wh ->
  select_status wh lit col g =
  inr (map col (filter (fun r => str_eq lit (cx_status r)) g)).
Proof.
  intros Hnd Hincl. unfold select_status.
  rewrite (@mapM_ext_in _ _ (fun r => loc_cx_status wh (idx r)) cx_status g).
  - simpl. unfold ret. rewrite map_map, boolean_index_map. reflexivity.
  - intros r Hr. apply loc_cx_status_own; [exact Hnd | apply Hincl, Hr].
Qed.

Lemma cluster_rows_incl (k : Z) (wh : list Row) : incl (cluster_rows k wh) wh.
Proof. intros r Hr. apply filter_In in Hr. apply Hr. Qed.

Lemma length_zero_nil {A : Type} (l : list A) : List.length l = 0%nat -> l = [].
Proof. destruct l; [reflexivity | discriminate]. Qed.

(** C4.  In the summary table of an ingested upload, a cluster without any
    row of a status has NaN, not a number, as that status's mean
    [partner_gmv] and mean [dist_from_wh]. *)
Theorem empty_status_means_are_nan (py_float : string -> option float)
        (raw : list RawRow) (df : list Row) (W : option string)
        (tbl : list SummaryRow)
        (Hing : ingest py_float raw = inr df)
        (H : cluster_summary (wh_data df W) = inr tbl)
        (row : SummaryRow) (Hin : In row tbl) :
  (transacting_count row = 0%nat ->
   avg_pgmv_transacting row = NaN /\ avg_dist_transacting row = NaN) /\
  (non_transacting_count row = 0%nat ->
   avg_pgmv_nontransacting row = NaN /\ avg_dist_nontransacting row = NaN).
Proof.
  pose proof (wh_data_unique_index _ _ W Hing) as Hnd.
  destruct (@cluster_summary_row_members _ _ row H Hin) as [_ Hagg].
  apply summary_agg_inr in Hagg. simpl in Hagg.
  destruct Hagg as (_ & Ht & Hn & [pt [Hpt Hapt]] & [pn [Hpn Hapn]]
                    & [dt [Hdt Hadt]] & [dn [Hdn Hadn]]).
  rewrite map_map, sum_bool_map in Ht, Hn.
  rewrite select_status_own in Hpt by (try exact Hnd; apply cluster_rows_incl).
  rewrite select_status_own in Hpn by (try exact Hnd; apply cluster_rows_incl).
  rewrite select_status_own in Hdt by (try exact Hnd; apply cluster_rows_incl).
  rewrite select_status_own in Hdn by (try exact Hnd; apply cluster_rows_incl).
  injection Hpt as <-. injection Hpn as <-. injection Hdt as <-. injection Hdn as <-.
  split; intros Hzero.
  - rewrite Hzero in Ht. symmetry in Ht. apply length_zero_nil in Ht.
    rewrite Ht in Hapt, Hadt. simpl in Hapt, Hadt.
    injection Hapt as <-. split; [reflexivity | exact Hadt].
  - rewrite Hzero in Hn. symmetry in Hn. apply length_zero_nil in Hn.
    rewrite Hn in Hapn, Hadn. simpl in Hapn, Hadn.
    injection Hapn as <-. split; [reflexivity | exact Hadn].
Qed.

(** ** Selection *)

Lemma wh_data_missing_selection (df : list Row) : wh_data df None = [].
Proof.
  unfold wh_data. induction df as [| r df IH]; simpl.
  - reflexivity.
  - destruct (warehouse_name r); simpl; exact IH.
Qed.

Lemma wh_data_named_selection (df : list Row) (name : string) :
  In (Some name) (warehouses df) -> wh_data df (Some name) <> [].
Proof.
  intros Hin. unfold warehouses in Hin.
  apply (proj1 (unique_In _ _)) in Hin. apply in_map_iff in Hin.
  destruct Hin as [r [Hname Hr]].
  assert (Hsel : In r (wh_data df (Some name))).
  { apply filter_In. split; [exact Hr |].
    rewrite Hname. simpl. apply String.eqb_refl. }
  intros Hnil. rewrite Hnil in Hsel. contradiction.
Qed.

Lemma selectbox_named_In (options : list (option string)) (choice : nat)
      (name : string) :
  selectbox options choice = Some name -> In (Some name) options.
Proof.
  unfold selectbox. intros H.
  destruct (Nat.lt_ge_cases choice (List.length options)) as [Hlt | Hge].
  - rewrite <- H. apply nth_In, Hlt.
  - rewrite nth_overflow in H by exact Hge. discriminate H.
Qed.

Lemma present_of_rows (df : list Row) (choice : nat) (first : Row) (rest : list Row) :
  wh_data df (selectbox (warehouses df) choice) = first :: rest ->
  present df choice <> inr NoClusterData.
Proof.
  unfold present. intros ->.
  destruct (cluster_data (first :: rest)); simpl; [discriminate |].
  destruct (cluster_summary (first :: rest)); simpl; [discriminate |].
  destruct (render (wh_coordinate first) (first :: rest) l); simpl; discriminate.
Qed.

(** C7, as the code has it.  A selection that is a warehouse name occurs in
    the column, its subset has rows, and the notice for an empty subset is
    not reached.  A selection that is no name, the missing value that the
    selector offers when the column has one or the nothing it returns for a
    table without rows, has the empty subset and leads to the notice. *)
Theorem selection_subset_by_kind (df : list Row) (choice : nat) :
  match selectbox (warehouses df) choice with
  | Some name =>
      In (Some name) (map warehouse_name df) /\
      wh_data df (Some name) <> [] /\
      present df choice <> inr NoClusterData
  | None =>
      wh_data df None = [] /\ present df choice = inr NoClusterData
  end.
Proof.
  destruct (selectbox (warehouses df) choice) as [name |] eqn:Hsel.
  - pose proof (selectbox_named_In _ _ Hsel) as Hin.
    pose proof (@wh_data_named_selection df name Hin) as Hne.
    split; [exact (proj1 (unique_In _ _) Hin) | split; [exact Hne |]].
    destruct (wh_data df (Some name)) as [| first rest] eqn:Hwh.
    + contradiction Hne. reflexivity.
    + apply (@present_of_rows df choice first rest). rewrite Hsel. exact Hwh.
  - split; [apply wh_data_missing_selection |].
    unfold present. rewrite Hsel, wh_data_missing_selection. reflexivity.
Qed.

(** ** Presentation *)

Lemma add_lines_data (wh : float * float) (fig : Figure) (cd : list ClusterRow) :
  data (add_lines wh fig cd) = data fig ++ map (line_trace wh) cd /\
  layout (add_lines wh fig cd) = layout fig.
Proof.
  unfold add_lines. revert fig. induction cd as [| row cd IH]; intros fig; simpl.
  - rewrite app_nil_r. split; reflexivity.
  - destruct (IH (add_trace fig (line_trace wh row))) as [Hd Hl].
    rewrite Hd, Hl. simpl. rewrite <- app_assoc. split; reflexivity.
Qed.

Lemma render_inr (wh : float * float) (rows : list Row) (cd : list ClusterRow)
      (fig : Figure) :
  render wh rows cd = inr fig ->
  exists centroids green red,
    centroid_trace cd = inr centroids /\
    customer_trace "Transacting CX" "green" (transacting rows) = inr green /\
    customer_trace "Non-Transacting CX" "red" (non_transacting rows) = inr red /\
    data fig = centroids :: map (line_trace wh) cd ++ [green; red] /\
    option_map mapbox_center (layout fig) = Some wh.
Proof.
  unfold render. intros H.
  apply bind_inr in H. destruct H as [centroids [Hc H]].
  apply bind_inr in H. destruct H as [green [Hg H]].
  apply bind_inr in H. destruct H as [red [Hr H]].
  injection H as <-.
  exists centroids, green, red. repeat split; try assumption.
  simpl. destruct (add_lines_data wh (add_trace new_figure centroids) cd) as [Hd _].
  rewrite Hd. simpl. rewrite <- !app_assoc. reflexivity.
Qed.

Lemma present_dashboard (df : list Row) (choice : nat) (fig : Figure)
      (summary : list SummaryRow) :
  present df choice = inr (Dashboard fig summary) ->
  exists first rest centroids,
    wh_data df (selectbox (warehouses df) choice) = first :: rest /\
    cluster_data (first :: rest) = inr centroids /\
    cluster_summary (first :: rest) = inr summary /\
    render (wh_coordinate first) (first :: rest) centroids = inr fig.
Proof.
  unfold present. intros H.
  destruct (wh_data df (selectbox (warehouses df) choice)) as [| first rest].
  - discriminate H.
  - apply bind_inr in H. destruct H as [centroids [Hc H]].
    apply bind_inr in H. destruct H as [summary' [Hs H]].
    apply bind_inr in H. destruct H as [fig' [Hf H]].
    injection H as <- <-.
    exists first, rest, centroids. repeat split; assumption.
Qed.

(** C9.  On a page that shows the dashboard the map is centred on the
    [wh_lat], [wh_long] of the first row of the warehouse subset, there is
    one line per row of the centroid table, and every line starts at that
    same coordinate: the rows after the first have no part in it. *)
Theorem map_anchored_at_first_row (df : list Row) (choice : nat) (fig : Figure)
        (summary : list SummaryRow)
        (H : present df choice = inr (Dashboard fig summary)) :
  exists first rest centroids,
    wh_data df (selectbox (warehouses df) choice) = first :: rest /\
    cluster_data (first :: rest) = inr centroids /\
    option_map mapbox_center (layout fig) = Some (wh_lat first, wh_long first) /\
    (forall row, In row centroids ->
       In (Line "gray" [wh_lat first; ca_latitude (cd_agg row)]
                       [wh_long first; ca_longitude (cd_agg row)]) (data fig)) /\
    (forall color lat lon, In (Line color lat lon) (data fig) ->
       exists clat clon,
         lat = [wh_lat first; clat] /\ lon = [wh_long first; clon]).
Proof.
  apply present_dashboard in H.
  destruct H as (first & rest & centroids & Hwh & Hcd & _ & Hfig).
  exists first, rest, centroids.
  apply render_inr in Hfig.
  destruct Hfig as (ct & green & red & Hct & Hg & Hr & Hdata & Hcenter).
  split; [exact Hwh | split; [exact Hcd | split; [exact Hcenter | split]]].
  - intros row Hrow. rewrite Hdata. right. apply in_or_app. left.
    apply in_map_iff. exists row. split; [reflexivity | exact Hrow].
  - intros color lat lon Hin. rewrite Hdata in Hin.
    unfold centroid_trace in Hct. apply bind_inr in Hct.
    destruct Hct as [hover [_ Hct]]. injection Hct as <-.
    unfold customer_trace in Hg, Hr.
    apply bind_inr in Hg. destruct Hg as [pg [_ Hg]]. injection Hg as <-.
    apply bind_inr in Hr. destruct Hr as [pr [_ Hr]]. injection Hr as <-.
    destruct Hin as [Hin | Hin]; [discriminate Hin |].
    apply in_app_or in Hin. destruct Hin as [Hin | Hin].
    + apply in_map_iff in Hin. destruct Hin as [row [Hline _]].
      unfold line_trace in Hline. injection Hline as _ <- <-.
      eexists. eexists. split; reflexivity.
    + destruct Hin as [Hin | [Hin | []]]; discriminate Hin.
Qed.

(** ** The stages succeed on a numeric [partner_gmv] column *)

Lemma sum_from_numeric (cs : list Cell) (acc : option Cell) :
  Forall (fun c => numeric_cell c = true) cs ->
  (acc = None \/ exists q, acc = Some (Num q)) ->
  exists acc', sum_from acc cs = inr acc' /\
               (acc' = None \/ exists q, acc' = Some (Num q)).
Proof.
  intros H. revert acc. induction H as [| c cs Hc _ IH]; intros acc Hacc; simpl.
  - exists acc. split; [reflexivity | exact Hacc].
  - destruct c as [q | | s]; simpl in *; try discriminate Hc.
    + destruct Hacc as [-> | [a ->]]; simpl; apply IH; right; eexists; reflexivity.
    + apply IH, Hacc.
Qed.

Lemma sum_cells_numeric (cs : list Cell) :
  Forall (fun c => numeric_cell c = true) cs ->
  exists q, sum_cells cs = inr (Num q).
Proof.
  intros H. unfold sum_cells.
  destruct (sum_from_numeric H (or_introl eq_refl)) as [acc [-> Hacc]]. simpl.
  destruct Hacc as [-> | [q ->]]; eexists; reflexivity.
Qed.

Lemma to_numeric_total (cs : list Cell) :
  Forall (fun c => numeric_cell c = true) cs -> exists vs, to_numeric cs = inr vs.
Proof.
  induction 1 as [| c cs Hc _ [vs IH]]; simpl.
  - eexists. reflexivity.
  - destruct c as [q | | s]; simpl in *; try discriminate Hc;
      rewrite IH; simpl; eexists; reflexivity.
Qed.

Lemma loc_cx_status_total (wh : list Row) (r : Row) :
  In r wh -> exists s, loc_cx_status wh (idx r) = inr s.
Proof.
  intros Hin. unfold loc_cx_status.
  destruct (find (fun r0 => Nat.eqb (idx r0) (idx r)) wh) as [r0 |] eqn:Hfind.
  - eexists. reflexivity.
  - exfalso. apply (find_none _ _ Hfind) in Hin.
    rewrite Nat.eqb_refl in Hin. discriminate Hin.
Qed.

Lemma boolean_index_Forall {A : Type} (P : A -> Prop) (xs : list A) (mask : list bool) :
  Forall P xs -> Forall P (boolean_index xs mask).
Proof.
  intros H. revert mask. induction H as [| x xs Hx _ IH]; intros mask; simpl.
  - constructor.
  - destruct mask as [| b mask]; [constructor |].
    destruct b; [constructor; [exact Hx | apply IH] | apply IH].
Qed.

Lemma select_status_total {A : Type} (P : A -> Prop) (wh : list Row)
      (lit : string) (col : Row -> A) (g : list Row) :
  incl g wh -> Forall (fun r => P (col r)) g ->
  exists sel, select_status wh lit col g = inr sel /\ Forall P sel.
Proof.
  intros Hincl HP. unfold select_status.
  destruct (@mapM_total _ _ (fun r => loc_cx_status wh (idx r)) g) as [st Hst].
  { intros r Hr. apply loc_cx_status_total, Hincl, Hr. }
  rewrite Hst. simpl. eexists. split; [reflexivity |].
  apply boolean_index_Forall. apply Forall_map. exact HP.
Qed.

Lemma groupby_incl (wh : list Row) (g : Z * list Row) :
  In g (groupby k_means wh) -> incl (snd g) wh.
Proof.
  destruct g as [k g]. intros H. apply groupby_spec in H. destruct H as [-> _].
  simpl. intros r Hr. apply filter_In in Hr. apply Hr.
Qed.

Lemma Forall_incl {A : Type} (P : A -> Prop) (l l' : list A) :
  incl l l' -> Forall P l' -> Forall P l.
Proof.
  intros Hincl H. rewrite Forall_forall in *. intros a Ha. apply H, Hincl, Ha.
Qed.

Lemma cluster_data_total (wh : list Row) :
  numeric_partner_gmv wh ->
  exists tbl, cluster_data wh = inr tbl /\
              Forall (fun row => exists q, ca_partner_gmv (cd_agg row) = Num q) tbl.
Proof.
  intros Hnum. unfold cluster_data.
  assert (Hall : Forall (fun g => exists a, centroid_agg g = inr a /\
                                 exists q, ca_partner_gmv a = Num q)
                        (groupby k_means wh)).
  { apply Forall_forall. intros g Hg. unfold centroid_agg.
    destruct (@sum_cells_numeric (map partner_gmv (snd g))) as [q Hq].
    { apply Forall_map. apply (Forall_incl (groupby_incl _ _ Hg) Hnum). }
    rewrite Hq. simpl. eexists. split; [reflexivity |]. simpl. exists q. reflexivity. }
  induction Hall as [| g gs [a [Ha Hq]] _ [tbl [IH Htbl]]]; simpl.
  - exists []. split; [reflexivity | constructor].
  - rewrite Ha. simpl. apply bind_inr in IH. destruct IH as [aggs [Haggs IH]].
    rewrite Haggs. simpl. injection IH as <-.
    eexists. split; [reflexivity |]. constructor; [exact Hq | exact Htbl].
Qed.

Lemma cluster_summary_total (wh : list Row) :
  numeric_partner_gmv wh -> exists tbl, cluster_summary wh = inr tbl.
Proof.
  intros Hnum. unfold cluster_summary. apply mapM_total. intros g Hg.
  pose proof (groupby_incl _ _ Hg) as Hincl.
  pose proof (Forall_incl Hincl Hnum) as Hg_num.
  unfold summary_agg.
  destruct (@select_status_total _ (fun c => numeric_cell c = true) wh
              "Transacting" partner_gmv (snd g) Hincl Hg_num) as [pt [Hspt Hpt]].
  destruct (to_numeric_total Hpt) as [vt Hvt].
  destruct (@select_status_total _ (fun c => numeric_cell c = true) wh
              "Non-Transacting" partner_gmv (snd g) Hincl Hg_num) as [pn [Hspn Hpn]].
  destruct (to_numeric_total Hpn) as [vn Hvn].
  destruct (@select_status_total _ (fun _ => True) wh
              "Transacting" dist_from_wh (snd g) Hincl) as [dt [Hsdt _]].
  { apply Forall_forall. trivial. }
  destruct (@select_status_total _ (fun _ => True) wh
              "Non-Transacting" dist_from_wh (snd g) Hincl) as [dn [Hsdn _]].
  { apply Forall_forall. trivial. }
  rewrite Hspt. simpl. unfold mean_cells at 1. rewrite Hvt. simpl.
  rewrite Hspn. simpl. unfold mean_cells at 1. rewrite Hvn. simpl.
  rewrite Hsdt. simpl. rewrite Hsdn. simpl. eexists. reflexivity.
Qed.

Lemma customer_trace_total (name color : string) (rows : list Row) :
  numeric_partner_gmv rows -> exists t, customer_trace name color rows = inr t.
Proof.
  intros Hnum. unfold customer_trace.
  destruct (@to_numeric_total (map partner_gmv rows)) as [vs ->].
  { apply Forall_map. exact Hnum. }
  simpl. eexists. reflexivity.
Qed.

Lemma render_total (wh : float * float) (rows : list Row) (cd : list ClusterRow) :
  numeric_partner_gmv rows ->
  Forall (fun row => exists q, ca_partner_gmv (cd_agg row) = Num q) cd ->
  exists fig, render wh rows cd = inr fig.
Proof.
  intros Hnum Hcd. unfold render, centroid_trace.
  destruct (@mapM_total _ _ centroid_hover cd) as [hover ->].
  { intros row Hrow. rewrite Forall_forall in Hcd.
    destruct (Hcd row Hrow) as [q Hq]. unfold centroid_hover. rewrite Hq. simpl.
    eexists. reflexivity. }
  simpl.
  destruct (@customer_trace_total "Transacting CX" "green" (transacting rows)) as [g ->].
  { apply (@Forall_incl _ _ _ rows); [| exact Hnum].
    intros r Hr. apply filter_In in Hr. apply Hr. }
  simpl.
  destruct (@customer_trace_total "Non-Transacting CX" "red" (non_transacting rows))
    as [r ->].
  { apply (@Forall_incl _ _ _ rows); [| exact Hnum].
    intros r Hr. apply filter_In in Hr. apply Hr. }
  simpl. eexists. reflexivity.
Qed.

(** On a frame whose [partner_gmv] column is numeric the script shows the
    notice or the dashboard; nothing is raised after ingestion. *)
Lemma present_total (df : list Row) (choice : nat) :
  numeric_partner_gmv df ->
  present df choice = inr NoClusterData \/
  exists fig summary, present df choice = inr (Dashboard fig summary).
Proof.
  intros Hnum. unfold present.
  destruct (wh_data df (selectbox (warehouses df) choice)) as [| first rest] eqn:Hwh.
  - left. reflexivity.
  - right.
    assert (Hwh_num : numeric_partner_gmv (first :: rest)).
    { rewrite <- Hwh. apply (@Forall_incl _ _ _ df); [| exact Hnum].
      intros r Hr. apply filter_In in Hr. apply Hr. }
    destruct (cluster_data_total Hwh_num) as [cd [Hcd_eq Hcd]].
    destruct (cluster_summary_total Hwh_num) as [summary Hsum].
    destruct (render_total (wh_coordinate first) Hwh_num Hcd) as [fig Hfig].
    rewrite Hcd_eq. simpl. rewrite Hsum. simpl. rewrite Hfig. simpl.
    eexists. eexists. reflexivity.
Qed.

(** * The model at work *)

Local Open Scope string_scope.

(** The scenario of the specification: two rows of one cluster, one of
    each status, with [partner_gmv] 100 and 50. *)
Example scenario_two_rows :
  exists row rest srow srest,
    sample_centroids = row :: rest /\ sample_summary = srow :: srest /\
    match ca_latitude (cd_agg row) with Some m => m == 1.1 | None => False end /\
    ca_partner_gmv (cd_agg row) = Num 150 /\
    cd_transacting_count row = 1%nat /\ cd_non_transacting_count row = 1%nat /\
    transacting_count srow = 1%nat /\ non_transacting_count srow = 1%nat /\
    avg_pgmv_transacting srow = Some 100 /\ avg_pgmv_nontransacting srow = Some 50.
Proof.
  do 4 eexists. split; [reflexivity |]. split; [reflexivity |].
  simpl. repeat split; reflexivity.
Qed.

Example sample_upload_is_shown :
  exists fig, sample_page = Dashboard fig sample_summary.
Proof. eexists. reflexivity. Qed.

(** Text in a coerced column: a literal is converted, anything else stops
    the script at ingestion. *)
Example latitude_literal_is_converted :
  map latitude (frame_of (upload_latitude "2.5")) = [Some 2.5].
Proof. reflexivity. Qed.

Example latitude_text_fails :
  ingest decimal_float (upload_latitude "north") = inl ValueError.
Proof. reflexivity. Qed.

(** Text in [partner_gmv] passes ingestion and stops the script later:
    in the aggregation, or not before the hover text is formatted. *)
Example text_gmv_fails_in_aggregation :
  (exists df, ingest decimal_float upload_text_in_status_row = inr df /\
              cluster_data (wh_data df (Some "A")) = inl TypeError) /\
  script decimal_float (Some upload_text_in_status_row) 0 = Raised TypeError.
Proof. split; [eexists; split |]; reflexivity. Qed.

Example text_gmv_fails_in_rendering :
  (exists df cd summary,
      ingest decimal_float upload_text_in_other_row = inr df /\
      cluster_data (wh_data df (Some "A")) = inr cd /\
      cluster_summary (wh_data df (Some "A")) = inr summary) /\
  script decimal_float (Some upload_text_in_other_row) 0 = Raised ValueError.
Proof. split; [do 3 eexists; repeat split |]; reflexivity. Qed.

(** C3 as stated fails: a member row without [customer_id] is counted by
    its status and not by the count column. *)
Lemma count_column_misses_row_without_customer_id :
  exists df tbl row,
    ingest decimal_float upload_without_customer_id = inr df /\
    cluster_data (wh_data df (Some "A")) = inr tbl /\
    In row tbl /\
    cd_transacting_count row = 1%nat /\
    cd_non_transacting_count row = 0%nat /\
    ca_customer_id (cd_agg row) = 0%nat /\
    ~ (cd_transacting_count row + cd_non_transacting_count row
       <= ca_customer_id (cd_agg row))%nat.
Proof.
  do 3 eexists.
  split; [reflexivity |]. split; [reflexivity |].
  split; [left; reflexivity |]. simpl.
  split; [reflexivity |]. split; [reflexivity |]. split; [reflexivity |].
  intros Hle. vm_compute in Hle. inversion Hle.
Qed.

(** C7 as stated fails: the selector offers the missing value of the
    column, and the subset of that selection is empty. *)
Lemma missing_warehouse_name_is_selectable :
  exists df,
    ingest decimal_float upload_without_warehouse_name = inr df /\
    (0 < List.length (warehouses df))%nat /\
    In (selectbox (warehouses df) 0) (map warehouse_name df) /\
    wh_data df (selectbox (warehouses df) 0) = [] /\
    script decimal_float (Some upload_without_warehouse_name) 0 = NoClusterData.
Proof.
  eexists. split; [reflexivity |]. simpl.
  split; [lia |]. split; [left; reflexivity |]. split; reflexivity.
Qed.

(** The summary table of warehouse A in the sample, cluster 0. *)
Lemma summary_counts_match_status_filter_witness :
  cluster_summary (wh_data sample_frame (Some "A")) = inr sample_summary /\
  (cluster_rows 0 (wh_data sample_frame (Some "A")) <> [] ->
   exists row, In row sample_summary /\ cs_k_means row = 0%Z) /\
  (forall row, In row sample_summary -> cs_k_means row = 0%Z ->
     transacting_count row =
       List.length (cluster_rows 0 (transacting (wh_data sample_frame (Some "A")))) /\
     non_transacting_count row =
       List.length (cluster_rows 0 (non_transacting (wh_data sample_frame (Some "A"))))).
Proof.
  split; [reflexivity |].
  apply (@summary_counts_match_status_filter
           (wh_data sample_frame (Some "A")) sample_summary).
  reflexivity.
Defined.

(** Cluster 1 of warehouse A in the sample: one member row, of a status
    that is not recognised. *)
Lemma status_counts_within_member_rows_witness :
  exists row,
    cluster_data (wh_data sample_frame (Some "A")) = inr sample_centroids /\
    In row sample_centroids /\
    let members := cluster_rows (ca_k_means (cd_agg row))
                                (wh_data sample_frame (Some "A")) in
    (cd_transacting_count row + cd_non_transacting_count row
     <= List.length members)%nat /\
    ((cd_transacting_count row + cd_non_transacting_count row)%nat
     = List.length members <->
     Forall (fun r => recognised (cx_status r) = true) members) /\
    (ca_customer_id (cd_agg row) <= List.length members)%nat /\
    (ca_customer_id (cd_agg row) = List.length members <->
     Forall (fun r => customer_id r <> None) members).
Proof.
  exists (nth 1 sample_centroids (add_counts (mkCentroidAgg 0 NaN NaN Missing NaN 0 []))).
  split; [reflexivity |]. split; [right; left; reflexivity |].
  apply (@status_counts_within_member_rows
           (wh_data sample_frame (Some "A")) sample_centroids).
  - reflexivity.
  - right. left. reflexivity.
Defined.

(** Cluster 1 of warehouse A in the sample has no row of either status. *)
Lemma empty_status_means_are_nan_witness :
  exists row,
    ingest decimal_float sample_upload = inr sample_frame /\
    cluster_summary (wh_data sample_frame (Some "A")) = inr sample_summary /\
    In row sample_summary /\
    transacting_count row = 0%nat /\
    (transacting_count row = 0%nat ->
     avg_pgmv_transacting row = NaN /\ avg_dist_transacting row = NaN) /\
    (non_transacting_count row = 0%nat ->
     avg_pgmv_nontransacting row = NaN /\ avg_dist_nontransacting row = NaN).
Proof.
  exists (nth 1 sample_summary (mkSummaryRow 0 0 0 NaN NaN NaN NaN)).
  split; [reflexivity |]. split; [reflexivity |].
  split; [right; left; reflexivity |]. split; [reflexivity |].
  apply (@empty_status_means_are_nan decimal_float sample_upload sample_frame
           (Some "A") sample_summary).
  - reflexivity.
  - reflexivity.
  - right. left. reflexivity.
Defined.

(** The page of the sample: the third row of warehouse A carries another
    warehouse coordinate than the first. *)
Lemma map_anchored_at_first_row_witness :
  exists fig,
    present sample_frame 0 = inr (Dashboard fig sample_summary) /\
    exists first rest centroids,
      wh_data sample_frame (selectbox (warehouses sample_frame) 0) = first :: rest /\
      cluster_data (first :: rest) = inr centroids /\
      option_map mapbox_center (layout fig) = Some (wh_lat first, wh_long first) /\
      (forall row, In row centroids ->
         In (Line "gray" [wh_lat first; ca_latitude (cd_agg row)]
                         [wh_long first; ca_longitude (cd_agg row)]) (data fig)) /\
      (forall color lat lon, In (Line color lat lon) (data fig) ->
         exists clat clon,
           lat = [wh_lat first; clat] /\ lon = [wh_long first; clon]).
Proof.
  eexists. split; [vm_compute; reflexivity |].
  apply (@map_anchored_at_first_row sample_frame 0 _ sample_summary).
  vm_compute. reflexivity.
Defined.

(** The sample, with and without text in [partner_gmv]. *)
Lemma partner_gmv_not_coerced_witness :
  Forall2 same_but_partner_gmv upload_text_in_status_row sample_upload /\
  (forall e, ingest decimal_float upload_text_in_status_row = inl e <->
             ingest decimal_float sample_upload = inl e) /\
  ((exists df, ingest decimal_float upload_text_in_status_row = inr df) <->
   (exists df', ingest decimal_float sample_upload = inr df')) /\
  (forall df, ingest decimal_float upload_text_in_status_row = inr df ->
              map partner_gmv df = map raw_partner_gmv upload_text_in_status_row) /\
  (forall choice e,
      script decimal_float (Some upload_text_in_status_row) choice = Raised e ->
      ingest decimal_float upload_text_in_status_row = inl e \/
      exists df, ingest decimal_float upload_text_in_status_row = inr df /\
                 present df choice = inl e).
Proof.
  assert (Hsame : Forall2 same_but_partner_gmv upload_text_in_status_row sample_upload).
  { unfold upload_text_in_status_row, sample_upload.
    repeat constructor. }
  split; [exact Hsame |].
  exact (@partner_gmv_not_coerced decimal_float upload_text_in_status_row
           sample_upload Hsame).
Defined.

(** * Further properties of the script *)

(** ** The order and the alignment of the two tables *)

Lemma ascending_keys {A : Type} (gs : list (Z * list A)) :
  ascending gs -> StronglySorted Z.lt (map fst gs).
Proof.
  unfold ascending. induction 1 as [| g gs _ IH Hall]; simpl.
  - constructor.
  - constructor; [exact IH |]. apply Forall_map. exact Hall.
Qed.

Lemma Forall2_keys {A B : Type} (ka : A -> Z) (kb : B -> Z) (l : list A)
      (tbl : list B) :
  Forall2 (fun a b => kb b = ka a) l tbl -> map kb tbl = map ka l.
Proof.
  induction 1 as [| a b l tbl Hab _ IH]; simpl.
  - reflexivity.
  - rewrite Hab, IH. reflexivity.
Qed.

Lemma Forall2_weaken {A B : Type} (R S : A -> B -> Prop) (l : list A)
      (tbl : list B) :
  (forall a b, R a b -> S a b) -> Forall2 R l tbl -> Forall2 S l tbl.
Proof.
  intros HRS. induction 1; constructor; auto.
Qed.

Lemma centroid_keys_groupby (wh : list Row) (cd : list ClusterRow) :
  cluster_data wh = inr cd -> centroid_keys cd = map fst (groupby k_means wh).
Proof.
  intros H. apply cluster_data_rows in H. unfold centroid_keys.
  apply Forall2_keys. eapply Forall2_weaken; [| exact H].
  intros g row [a [Ha ->]]. simpl. apply (centroid_agg_inr _ Ha).
Qed.

Lemma summary_keys_groupby (wh : list Row) (sm : list SummaryRow) :
  cluster_summary wh = inr sm -> summary_keys sm = map fst (groupby k_means wh).
Proof.
  intros H. apply cluster_summary_rows in H. unfold summary_keys.
  apply Forall2_keys. eapply Forall2_weaken; [| exact H].
  intros g row Hrow. apply (summary_agg_inr _ _ Hrow).
Qed.

Lemma groupby_keys (wh : list Row) (k : Z) :
  In k (map fst (groupby k_means wh)) <-> cluster_rows k wh <> [].
Proof.
  rewrite in_map_iff. split.
  - intros [[k' g] [Hk Hg]]. simpl in Hk. subst k'.
    apply groupby_spec in Hg. destruct Hg as [-> Hne]. exact Hne.
  - intros Hne. exists (k, cluster_rows k wh). split; [reflexivity |].
    apply groupby_spec. split; [reflexivity | exact Hne].
Qed.

(** X1.  The centroid table and the summary table list the same clusters
    in the same, strictly ascending order of [k_means]: one row for each
    label that some row of the subset carries, and no other. *)
Theorem tables_share_ascending_clusters (wh : list Row) (cd : list ClusterRow)
        (sm : list SummaryRow)
        (Hcd : cluster_data wh = inr cd) (Hsm : cluster_summary wh = inr sm) :
  StronglySorted Z.lt (centroid_keys cd) /\
  summary_keys sm = centroid_keys cd /\
  (forall k, In k (centroid_keys cd) <-> cluster_rows k wh <> []).
Proof.
  rewrite (@centroid_keys_groupby _ _ Hcd), (@summary_keys_groupby _ _ Hsm).
  split; [| split].
  - apply ascending_keys, groupby_ascending.
  - reflexivity.
  - apply groupby_keys.
Qed.

Lemma list_count_sum_bool (lit : string) (l : list (option string)) :
  list_count lit l = sum_bool (map (str_eq lit) l).
Proof.
  unfold sum_bool. induction l as [| v l IH]; simpl.
  - reflexivity.
  - rewrite IH. destruct (str_eq lit v); reflexivity.
Qed.

Lemma Forall2_same_source {A B C : Type} (R : A -> B -> Prop) (S : A -> C -> Prop)
      (l : list A) (bs : list B) (cs : list C) :
  Forall2 R l bs -> Forall2 S l cs ->
  Forall2 (fun b c => exists a, R a b /\ S a c) bs cs.
Proof.
  intros HR. revert cs. induction HR as [| a b l bs Hab _ IH]; intros cs HS.
  - inversion HS. constructor.
  - inversion HS as [| a' c l' cs' Hac Hrest]; subst.
    constructor; [exists a; split; assumption | apply IH, Hrest].
Qed.

(** X2.  Row by row, the counts that the centroid table takes with
    [list.count] (shown in the hover text) are the counts that the summary
    table takes with [(x == ...).sum()]. *)
Theorem hover_counts_agree_with_summary (wh : list Row) (cd : list ClusterRow)
        (sm : list SummaryRow)
        (Hcd : cluster_data wh = inr cd) (Hsm : cluster_summary wh = inr sm) :
  Forall2 (fun row srow =>
             ca_k_means (cd_agg row) = cs_k_means srow /\
             cd_transacting_count row = transacting_count srow /\
             cd_non_transacting_count row = non_transacting_count srow)
          cd sm.
Proof.
  apply cluster_data_rows in Hcd. apply cluster_summary_rows in Hsm.
  pose proof (Forall2_same_source Hcd Hsm) as Hboth.
  eapply Forall2_weaken; [| exact Hboth].
  intros row srow [g [[a [Ha ->]] Hs]].
  apply centroid_agg_inr in Ha. destruct Ha as (Hk & _ & _ & _ & _ & _ & Hst).
  apply summary_agg_inr in Hs. destruct Hs as (Hk' & Ht & Hn & _).
  simpl. rewrite Hst, !list_count_sum_bool, Hk, Hk', Ht, Hn.
  repeat split.
Qed.

(** ** What the aggregates are *)

Lemma to_numeric_numbers (cs : list Cell) (vs : list float) :
  to_numeric cs = inr vs -> numbers vs = cell_numbers cs.
Proof.
  revert vs. induction cs as [| c cs IH]; simpl; intros vs H.
  - injection H as <-. reflexivity.
  - destruct c as [q | | s]; try discriminate H;
      apply bind_inr in H; destruct H as [vs' [Hvs' H]]; injection H as <-;
      simpl; rewrite (IH vs' Hvs'); reflexivity.
Qed.

Lemma is_mean_of_numbers_iff (x : float) (vs : list float) :
  is_mean_of x vs <-> is_mean_of_numbers x (numbers vs).
Proof.
  unfold is_mean_of, is_mean_of_numbers.
  destruct (numbers vs), x; reflexivity.
Qed.

Lemma mean_cells_is_mean (cs : list Cell) (x : float) :
  mean_cells cs = inr x -> is_mean_of_numbers x (cell_numbers cs).
Proof.
  unfold mean_cells. intros H. apply bind_inr in H.
  destruct H as [vs [Hvs H]]. injection H as <-.
  rewrite <- (to_numeric_numbers _ Hvs). apply is_mean_of_numbers_iff.
  apply mean_is_mean_of.
Qed.

(** X4.  In the summary table of an ingested upload, the four means of a
    cluster are taken over the cluster's rows of the status in question:
    the mask read back through [wh_data.loc] selects exactly these rows. *)
Theorem summary_means_over_status_rows (py_float : string -> option float)
        (raw : list RawRow) (df : list Row) (W : option string)
        (tbl : list SummaryRow)
        (Hing : ingest py_float raw = inr df)
        (H : cluster_summary (wh_data df W) = inr tbl)
        (row : SummaryRow) (Hin : In row tbl) :
  let on := cluster_rows (cs_k_means row) (transacting (wh_data df W)) in
  let off := cluster_rows (cs_k_means row) (non_transacting (wh_data df W)) in
  is_mean_of_numbers (avg_pgmv_transacting row) (cell_numbers (map partner_gmv on)) /\
  is_mean_of_numbers (avg_pgmv_nontransacting row) (cell_numbers (map partner_gmv off)) /\
  is_mean_of (avg_dist_transacting row) (map dist_from_wh on) /\
  is_mean_of (avg_dist_nontransacting row) (map dist_from_wh off).
Proof.
  intros on off.
  pose proof (wh_data_unique_index _ _ W Hing) as Hnd.
  destruct (@cluster_summary_row_members _ _ row H Hin) as [_ Hagg].
  apply summary_agg_inr in Hagg. simpl in Hagg.
  destruct Hagg as (_ & _ & _ & [pt [Hpt Hapt]] & [pn [Hpn Hapn]]
                    & [dt [Hdt Hadt]] & [dn [Hdn Hadn]]).
  rewrite select_status_own in Hpt by (try exact Hnd; apply cluster_rows_incl).
  rewrite select_status_own in Hpn by (try exact Hnd; apply cluster_rows_incl).
  rewrite select_status_own in Hdt by (try exact Hnd; apply cluster_rows_incl).
  rewrite select_status_own in Hdn by (try exact Hnd; apply cluster_rows_incl).
  injection Hpt as <-. injection Hpn as <-. injection Hdt as <-. injection Hdn as <-.
  unfold cluster_rows in Hapt, Hapn, Hadt, Hadn.
  rewrite filter_comm in Hapt, Hapn, Hadt, Hadn.
  subst on off. unfold cluster_rows, transacting, non_transacting, with_status.
  split; [apply mean_cells_is_mean, Hapt |].
  split; [apply mean_cells_is_mean, Hapn |].
  rewrite Hadt, Hadn. split; apply mean_is_mean_of.
Qed.

(** ** Rows, subsets and clusters *)

Lemma elem_eq_spec (a b : option string) :
  elem_eq a b = true <-> a = b /\ b <> None.
Proof.
  destruct a as [s |], b as [t |]; simpl; split;
    try (intros H; discriminate H);
    try (intros [H1 H2]; try discriminate H1; contradiction H2; reflexivity).
  - intros H. apply String.eqb_eq in H. subst. split; [reflexivity | discriminate].
  - intros [H _]. injection H as ->. apply String.eqb_refl.
Qed.

(** X5.  A row of the frame lies in the subset of exactly one selection,
    its own warehouse name, which the selector offers at some position; a
    row without a name lies in no subset at all. *)
Theorem row_in_subset_of_its_warehouse (df : list Row) (r : Row) (Hr : In r df) :
  (forall W, In r (wh_data df W) <-> W = warehouse_name r /\ W <> None) /\
  (forall name, warehouse_name r = Some name ->
     exists choice, (choice < List.length (warehouses df))%nat /\
                    selectbox (warehouses df) choice = Some name).
Proof.
  split.
  - intros W. unfold wh_data. rewrite filter_In, elem_eq_spec. split.
    + intros [_ [Heq Hne]]. split; [symmetry; exact Heq | exact Hne].
    + intros [Heq Hne]. split; [exact Hr | split; [symmetry; exact Heq | exact Hne]].
  - intros name Hname.
    assert (Hin : In (Some name) (warehouses df)).
    { unfold warehouses. apply unique_In. rewrite <- Hname. apply in_map, Hr. }
    destruct (In_nth _ _ None Hin) as [choice [Hlt Hnth]].
    exists choice. split; [exact Hlt | exact Hnth].
Qed.

Section GroupSizes.
Variable A : Type.
Variable key : A -> option Z.
Variable p : A -> bool.

Lemma group_insert_size (k : Z) (r : A) (gs : list (Z * list A)) :
  list_sum (map (fun g => List.length (filter p (snd g))) (group_insert k r gs)) =
  (list_sum (map (fun g => List.length (filter p (snd g))) gs)
   + if p r then 1 else 0)%nat.
Proof.
  induction gs as [| [k' rs] gs IH]; simpl.
  - destruct (p r); simpl; lia.
  - destruct (k <? k')%Z; simpl.
    + destruct (p r); simpl; lia.
    + destruct (k =? k')%Z; simpl.
      * rewrite filter_app, length_app. simpl. destruct (p r); simpl; lia.
      * rewrite IH. lia.
Qed.

Lemma fold_group_step_size (rows : list A) (gs : list (Z * list A)) :
  list_sum (map (fun g => List.length (filter p (snd g)))
                (fold_left (group_step key) rows gs)) =
  (list_sum (map (fun g => List.length (filter p (snd g))) gs)
   + List.length (filter (fun r => match key r with
                                   | Some _ => p r
                                   | None => false
                                   end) rows))%nat.
Proof.
  revert gs. induction rows as [| r rows IH]; intros gs; simpl.
  - lia.
  - rewrite IH. unfold group_step. destruct (key r) as [k |].
    + rewrite group_insert_size. destruct (p r); simpl; lia.
    + reflexivity.
Qed.
End GroupSizes.

Lemma list_sum_Forall2 {A B : Type} (f : A -> nat) (h : B -> nat) (l : list A)
      (tbl : list B) :
  Forall2 (fun a b => h b = f a) l tbl ->
  list_sum (map h tbl) = list_sum (map f l).
Proof.
  induction 1 as [| a b l tbl Hab _ IH]; simpl.
  - reflexivity.
  - rewrite Hab, IH. reflexivity.
Qed.

Lemma summary_count_total (wh : list Row) (sm : list SummaryRow) (lit : string)
      (count : SummaryRow -> nat) :
  Forall2 (fun g srow =>
             count srow = sum_bool (map (str_eq lit) (map cx_status (snd g))))
          (groupby k_means wh) sm ->
  list_sum (map count sm) = List.length (filter labelled (with_status lit wh)).
Proof.
  intros H.
  rewrite (@list_sum_Forall2 _ _
             (fun g => List.length (filter (fun r => str_eq lit (cx_status r)) (snd g)))
             count (groupby k_means wh) sm).
  - unfold groupby. rewrite fold_group_step_size. simpl.
    unfold with_status. rewrite filter_filter_and.
    f_equal. apply filter_ext. intros r. unfold labelled.
    destruct (k_means r); [rewrite andb_true_r | rewrite andb_false_r]; reflexivity.
  - eapply Forall2_weaken; [| exact H].
    intros g srow Hc. cbv beta in Hc. rewrite Hc, map_map, sum_bool_map. reflexivity.
Qed.

(** X6.  The counts of the summary table add up to the numbers of
    transacting and of non-transacting rows that carry a cluster label: a
    row without [k_means] is a point of its customer layer and is counted
    in no cluster. *)
Theorem summary_counts_add_up (wh : list Row) (sm : list SummaryRow)
        (H : cluster_summary wh = inr sm) :
  list_sum (map transacting_count sm) =
    List.length (filter labelled (transacting wh)) /\
  list_sum (map non_transacting_count sm) =
    List.length (filter labelled (non_transacting wh)) /\
  (list_sum (map transacting_count sm) <= List.length (transacting wh))%nat /\
  (list_sum (map non_transacting_count sm) <= List.length (non_transacting wh))%nat.
Proof.
  apply cluster_summary_rows in H.
  assert (Ht : list_sum (map transacting_count sm) =
               List.length (filter labelled (transacting wh))).
  { apply summary_count_total. eapply Forall2_weaken; [| exact H].
    intros g srow Hrow. apply (summary_agg_inr _ _ Hrow). }
  assert (Hn : list_sum (map non_transacting_count sm) =
               List.length (filter labelled (non_transacting wh))).
  { apply summary_count_total. eapply Forall2_weaken; [| exact H].
    intros g srow Hrow. apply (summary_agg_inr _ _ Hrow). }
  rewrite Ht, Hn. repeat split; apply filter_length_le.
Qed.

(** X9.  At the first position of the selector stands the warehouse of the
    first row of the file.  If that row has a name, its subset starts with
    this very row and a dashboard shown for the choice is centred on the
    warehouse coordinate of the row; if it has none, the choice leads to
    the notice for an empty subset. *)
Theorem first_choice_is_first_row (r : Row) (rest : list Row) :
  selectbox (warehouses (r :: rest)) 0 = warehouse_name r /\
  match warehouse_name r with
  | Some name =>
      (exists more, wh_data (r :: rest) (Some name) = r :: more) /\
      (forall fig summary,
          present (r :: rest) 0 = inr (Dashboard fig summary) ->
          option_map mapbox_center (layout fig) = Some (wh_lat r, wh_long r))
  | None => present (r :: rest) 0 = inr NoClusterData
  end.
Proof.
  assert (Hsel : selectbox (warehouses (r :: rest)) 0 = warehouse_name r).
  { unfold warehouses, selectbox. simpl map. rewrite unique_cons. reflexivity. }
  split; [exact Hsel |].
  destruct (warehouse_name r) as [name |] eqn:Hname.
  - assert (Hwh : wh_data (r :: rest) (Some name)
                  = r :: wh_data rest (Some name)).
    { unfold wh_data. simpl. rewrite Hname. simpl. rewrite String.eqb_refl.
      reflexivity. }
    split; [eexists; exact Hwh |].
    intros fig summary Hpage. apply present_dashboard in Hpage.
    destruct Hpage as (first & more & cd & Hsub & _ & _ & Hfig).
    rewrite Hsel, Hwh in Hsub. injection Hsub as <- _.
    apply render_inr in Hfig.
    destruct Hfig as (_ & _ & _ & _ & _ & _ & _ & Hcentre). exact Hcentre.
  - unfold present. rewrite Hsel, wh_data_missing_selection. reflexivity.
Qed.

(** ** Text in [partner_gmv] *)

Lemma sum_from_text (cs : list Cell) (acc acc' : option Cell) :
  sum_from acc cs = inr acc' ->
  (exists t, acc = Some (Text t)) \/ (exists s, In (Text s) cs) ->
  exists t, acc' = Some (Text t).
Proof.
  revert acc. induction cs as [| c cs IH]; simpl; intros acc H Htext.
  - injection H as <-. destruct Htext as [Ht | [s []]]. exact Ht.
  - apply bind_inr in H. destruct H as [acc1 [Hstep H]].
    apply (IH acc1 H). clear IH H.
    destruct c as [b | | b]; simpl in Hstep.
    + destruct acc as [[a | | a] |]; try discriminate Hstep;
        injection Hstep as <-.
      * right. destruct Htext as [[t Ht] | [s [Hs | Hs]]];
          try discriminate; exists s; exact Hs.
      * right. destruct Htext as [[t Ht] | [s [Hs | Hs]]];
          try discriminate; exists s; exact Hs.
    + injection Hstep as <-.
      destruct Htext as [Ht | [s [Hs | Hs]]];
        [left; exact Ht | discriminate Hs | right; exists s; exact Hs].
    + destruct acc as [[a | | a] |]; try discriminate Hstep;
        injection Hstep as <-; left; eexists; reflexivity.
Qed.

Lemma sum_cells_text (cs : list Cell) (c : Cell) (s : string) :
  sum_cells cs = inr c -> In (Text s) cs -> exists t, c = Text t.
Proof.
  unfold sum_cells. intros H Hin. apply bind_inr in H.
  destruct H as [acc [Hsum H]]. injection H as <-.
  destruct (@sum_from_text cs None acc Hsum) as [t ->].
  - right. exists s. exact Hin.
  - exists t. reflexivity.
Qed.

Lemma to_numeric_no_text (cs : list Cell) (vs : list float) :
  to_numeric cs = inr vs -> Forall (fun c => numeric_cell c = true) cs.
Proof.
  revert vs. induction cs as [| c cs IH]; simpl; intros vs H.
  - constructor.
  - destruct c as [q | | s]; try discriminate H;
      apply bind_inr in H; destruct H as [vs' [Hvs' _]];
      constructor; try reflexivity; apply (IH vs' Hvs').
Qed.

Lemma has_key_labelled (k : Z) (r : Row) :
  has_key k_means k r = true -> k_means r = Some k /\ labelled r = true.
Proof.
  unfold has_key, labelled. destruct (k_means r) as [k' |]; [| discriminate].
  intros H. apply Z.eqb_eq in H. subst. split; reflexivity.
Qed.

(** ** The exceptions after ingestion *)

Lemma sum_from_inl (cs : list Cell) (acc : option Cell) (e : Error) :
  sum_from acc cs = inl e -> e = TypeError.
Proof.
  revert acc. induction cs as [| c cs IH]; simpl; intros acc H.
  - discriminate H.
  - apply bind_inl in H. destruct H as [H | [acc' [_ H]]]; [| exact (IH _ H)].
    destruct c as [b | | b], acc as [[a | | a] |]; simpl in H;
      try discriminate H; injection H as <-; reflexivity.
Qed.

Lemma sum_cells_inl (cs : list Cell) (e : Error) :
  sum_cells cs = inl e -> e = TypeError.
Proof.
  unfold sum_cells. intros H. apply bind_inl in H.
  destruct H as [H | [acc [_ H]]]; [exact (sum_from_inl _ _ H) | discriminate H].
Qed.

Lemma to_numeric_inl (cs : list Cell) (e : Error) :
  to_numeric cs = inl e -> e = TypeError.
Proof.
  induction cs as [| c cs IH]; simpl; intros H.
  - discriminate H.
  - destruct c as [q | | s].
    + apply bind_inl in H. destruct H as [H | [vs [_ H]]];
        [exact (IH H) | discriminate H].
    + apply bind_inl in H. destruct H as [H | [vs [_ H]]];
        [exact (IH H) | discriminate H].
    + injection H as <-. reflexivity.
Qed.

Lemma mean_cells_inl (cs : list Cell) (e : Error) :
  mean_cells cs = inl e -> e = TypeError.
Proof.
  unfold mean_cells. intros H. apply bind_inl in H.
  destruct H as [H | [vs [_ H]]]; [exact (to_numeric_inl _ H) | discriminate H].
Qed.

(** [.loc] is asked for the labels of the subset's own rows only. *)
Lemma select_status_finds {A : Type} (wh : list Row) (lit : string)
      (col : Row -> A) (g : list Row) (e : Error) :
  incl g wh -> select_status wh lit col g <> inl e.
Proof.
  intros Hincl H. unfold select_status in H. apply bind_inl in H.
  destruct H as [H | [st [_ H]]]; [| discriminate H].
  apply mapM_inl in H. destruct H as [r [Hr Hloc]].
  destruct (loc_cx_status_total wh r (Hincl r Hr)) as [s Hs].
  rewrite Hs in Hloc. discriminate Hloc.
Qed.

Lemma summary_agg_inl (wh : list Row) (g : Z * list Row) (e : Error) :
  incl (snd g) wh -> summary_agg wh g = inl e -> e = TypeError.
Proof.
  intros Hincl H. unfold summary_agg in H.
  apply bind_inl in H. destruct H as [H | [pt [_ H]]];
    [exfalso; exact (select_status_finds _ _ Hincl H) |].
  apply bind_inl in H. destruct H as [H | [apt [_ H]]];
    [exact (mean_cells_inl _ H) |].
  apply bind_inl in H. destruct H as [H | [pn [_ H]]];
    [exfalso; exact (select_status_finds _ _ Hincl H) |].
  apply bind_inl in H. destruct H as [H | [apn [_ H]]];
    [exact (mean_cells_inl _ H) |].
  apply bind_inl in H. destruct H as [H | [dt [_ H]]];
    [exfalso; exact (select_status_finds _ _ Hincl H) |].
  apply bind_inl in H. destruct H as [H | [dn [_ H]]];
    [exfalso; exact (select_status_finds _ _ Hincl H) | discriminate H].
Qed.

Lemma cluster_summary_inl (wh : list Row) (e : Error) :
  cluster_summary wh = inl e -> e = TypeError.
Proof.
  unfold cluster_summary. intros H. apply mapM_inl in H.
  destruct H as [g [Hg H]].
  exact (summary_agg_inl _ (groupby_incl _ _ Hg) H).
Qed.

Lemma cluster_data_inl (wh : list Row) (e : Error) :
  cluster_data wh = inl e -> e = TypeError.
Proof.
  unfold cluster_data. intros H. apply bind_inl in H.
  destruct H as [H | [aggs [_ H]]]; [| discriminate H].
  apply mapM_inl in H. destruct H as [g [_ H]].
  unfold centroid_agg in H. apply bind_inl in H.
  destruct H as [H | [gmv [_ H]]]; [exact (sum_cells_inl _ H) | discriminate H].
Qed.

Lemma customer_trace_inl (name color : string) (rows : list Row) (e : Error) :
  customer_trace name color rows = inl e -> e = TypeError.
Proof.
  unfold customer_trace. intros H. apply bind_inl in H.
  destruct H as [H | [vs [_ H]]]; [exact (to_numeric_inl _ H) | discriminate H].
Qed.

Lemma render_inl (centre : float * float) (rows : list Row)
      (cd : list ClusterRow) (e : Error) :
  render centre rows cd = inl e -> e = TypeError \/ e = ValueError.
Proof.
  unfold render. intros H.
  apply bind_inl in H. destruct H as [H | [ct [_ H]]].
  - right. unfold centroid_trace in H. apply bind_inl in H.
    destruct H as [H | [hover [_ H]]]; [| discriminate H].
    apply mapM_inl in H. destruct H as [row [_ H]].
    unfold centroid_hover in H. apply bind_inl in H.
    destruct H as [H | [gmv [_ H]]]; [| discriminate H].
    destruct (ca_partner_gmv (cd_agg row)); simpl in H; try discriminate H.
    injection H as <-. reflexivity.
  - left. apply bind_inl in H. destruct H as [H | [green [_ H]]];
      [exact (customer_trace_inl _ _ _ H) |].
    apply bind_inl in H. destruct H as [H | [red [_ H]]];
      [exact (customer_trace_inl _ _ _ H) | discriminate H].
Qed.

(** ** The layers of the figure *)

Lemma centroid_trace_inr (cd : list ClusterRow) (t : Trace) :
  centroid_trace cd = inr t ->
  exists hover,
    t = Centroids "Clusters" "blue"
                  (map (fun row => ca_latitude (cd_agg row)) cd)
                  (map (fun row => ca_longitude (cd_agg row)) cd)
                  (centroid_keys cd) hover /\
    Forall2 hover_of_cluster cd hover.
Proof.
  unfold centroid_trace. intros H. apply bind_inr in H.
  destruct H as [hover [Hhover H]]. injection H as <-.
  exists hover. split; [reflexivity |].
  apply mapM_Forall2 in Hhover.
  eapply Forall2_weaken; [| exact Hhover].
  intros row h Hh. unfold centroid_hover in Hh. apply bind_inr in Hh.
  destruct Hh as [gmv [Hgmv Hh]]. injection Hh as <-.
  unfold hover_of_cluster. simpl. repeat split.
  destruct (ca_partner_gmv (cd_agg row)); simpl in Hgmv;
    try discriminate Hgmv; injection Hgmv as <-; reflexivity.
Qed.

Lemma point_hovers (rows : list Row) (vs : list float) :
  to_numeric (map partner_gmv rows) = inr vs ->
  Forall2 hover_of_customer rows (zip_with point_hover rows vs).
Proof.
  revert vs. induction rows as [| r rows IH]; simpl; intros vs H.
  - constructor.
  - destruct (partner_gmv r) as [q | | s] eqn:Hgmv; try discriminate H;
      apply bind_inr in H; destruct H as [vs' [Hvs' H]]; injection H as <-;
      simpl; (constructor; [| exact (IH vs' Hvs')]);
      unfold hover_of_customer; simpl; repeat split; exact Hgmv.
Qed.

Lemma customer_trace_inr (name color : string) (rows : list Row) (t : Trace) :
  customer_trace name color rows = inr t ->
  exists text,
    t = Customers name color (map latitude rows) (map longitude rows) text /\
    Forall2 hover_of_customer rows text.
Proof.
  unfold customer_trace. intros H. apply bind_inr in H.
  destruct H as [vs [Hvs H]]. injection H as <-.
  eexists. split; [reflexivity | exact (point_hovers _ Hvs)].
Qed.

(** X7.  The figure of a dashboard holds, in drawing order: the centroid
    markers, one per row of the centroid table and in its order, each with
    its own hover entry; one line per row of that table, from the warehouse
    coordinate to the centroid; the transacting rows of the subset as green
    points and the non-transacting rows as red points, in file order, each
    with its own hover entry.  Rows of any other status are on no layer. *)
Theorem figure_layers (df : list Row) (choice : nat) (fig : Figure)
        (summary : list SummaryRow)
        (H : present df choice = inr (Dashboard fig summary)) :
  exists first rest cd hover on_text off_text,
    let wh := first :: rest in
    wh_data df (selectbox (warehouses df) choice) = wh /\
    cluster_data wh = inr cd /\
    data fig =
      Centroids "Clusters" "blue"
                (map (fun row => ca_latitude (cd_agg row)) cd)
                (map (fun row => ca_longitude (cd_agg row)) cd)
                (centroid_keys cd) hover
      :: map (fun row => Line "gray"
                              [wh_lat first; ca_latitude (cd_agg row)]
                              [wh_long first; ca_longitude (cd_agg row)]) cd
      ++ [Customers "Transacting CX" "green"
                    (map latitude (transacting wh))
                    (map longitude (transacting wh)) on_text;
          Customers "Non-Transacting CX" "red"
                    (map latitude (non_transacting wh))
                    (map longitude (non_transacting wh)) off_text] /\
    Forall2 hover_of_cluster cd hover /\
    Forall2 hover_of_customer (transacting wh) on_text /\
    Forall2 hover_of_customer (non_transacting wh) off_text /\
    List.length (data fig) = (List.length cd + 3)%nat.
Proof.
  apply present_dashboard in H.
  destruct H as (first & rest & cd & Hwh & Hcd & _ & Hfig).
  apply render_inr in Hfig.
  destruct Hfig as (ct & green & red & Hct & Hg & Hr & Hdata & _).
  apply centroid_trace_inr in Hct. destruct Hct as [hover [-> Hhover]].
  apply customer_trace_inr in Hg. destruct Hg as [on_text [-> Hon]].
  apply customer_trace_inr in Hr. destruct Hr as [off_text [-> Hoff]].
  exists first, rest, cd, hover, on_text, off_text. simpl.
  split; [exact Hwh | split; [exact Hcd |]].
  split; [exact Hdata |].
  split; [exact Hhover | split; [exact Hon | split; [exact Hoff |]]].
  rewrite Hdata. simpl. rewrite length_app, length_map. simpl. lia.
Qed.

(** * The further properties on the sample *)

(** Warehouse A of the sample: clusters 0 and 1 in both tables. *)
Lemma tables_share_ascending_clusters_witness :
  cluster_data (wh_data sample_frame (Some "A")) = inr sample_centroids /\
  cluster_summary (wh_data sample_frame (Some "A")) = inr sample_summary /\
  StronglySorted Z.lt (centroid_keys sample_centroids) /\
  summary_keys sample_summary = centroid_keys sample_centroids /\
  (forall k, In k (centroid_keys sample_centroids) <->
             cluster_rows k (wh_data sample_frame (Some "A")) <> []).
Proof.
  split; [reflexivity |]. split; [reflexivity |].
  apply (@tables_share_ascending_clusters
           (wh_data sample_frame (Some "A")) sample_centroids sample_summary);
    reflexivity.
Defined.

Lemma hover_counts_agree_with_summary_witness :
  cluster_data (wh_data sample_frame (Some "A")) = inr sample_centroids /\
  cluster_summary (wh_data sample_frame (Some "A")) = inr sample_summary /\
  Forall2 (fun row srow =>
             ca_k_means (cd_agg row) = cs_k_means srow /\
             cd_transacting_count row = transacting_count srow /\
             cd_non_transacting_count row = non_transacting_count srow)
          sample_centroids sample_summary.
Proof.
  split; [reflexivity |]. split; [reflexivity |].
  apply (@hover_counts_agree_with_summary
           (wh_data sample_frame (Some "A")) sample_centroids sample_summary);
    reflexivity.
Defined.

(** Cluster 0 of warehouse A: one row of each status. *)
Lemma summary_means_over_status_rows_witness :
  exists row,
    ingest decimal_float sample_upload = inr sample_frame /\
    cluster_summary (wh_data sample_frame (Some "A")) = inr sample_summary /\
    In row sample_summary /\
    let on := cluster_rows (cs_k_means row)
                           (transacting (wh_data sample_frame (Some "A"))) in
    let off := cluster_rows (cs_k_means row)
                            (non_transacting (wh_data sample_frame (Some "A"))) in
    is_mean_of_numbers (avg_pgmv_transacting row)
                       (cell_numbers (map partner_gmv on)) /\
    is_mean_of_numbers (avg_pgmv_nontransacting row)
                       (cell_numbers (map partner_gmv off)) /\
    is_mean_of (avg_dist_transacting row) (map dist_from_wh on) /\
    is_mean_of (avg_dist_nontransacting row) (map dist_from_wh off).
Proof.
  exists (nth 0 sample_summary (mkSummaryRow 0 0 0 NaN NaN NaN NaN)).
  split; [reflexivity |]. split; [reflexivity |]. split; [left; reflexivity |].
  apply (@summary_means_over_status_rows decimal_float sample_upload sample_frame
           (Some "A") sample_summary).
  - reflexivity.
  - reflexivity.
  - left. reflexivity.
Defined.

(** The last row of the sample, the only one of warehouse B. *)
Lemma row_in_subset_of_its_warehouse_witness :
  exists r,
    In r sample_frame /\
    (forall W, In r (wh_data sample_frame W) <-> W = warehouse_name r /\ W <> None) /\
    (forall name, warehouse_name r = Some name ->
       exists choice, (choice < List.length (warehouses sample_frame))%nat /\
                      selectbox (warehouses sample_frame) choice = Some name).
Proof.
  exists (nth 3 sample_frame
              (mkRow 0 NaN NaN NaN NaN NaN NaN None None None None Missing None)).
  assert (Hin : In (nth 3 sample_frame
                        (mkRow 0 NaN NaN NaN NaN NaN NaN None None None None Missing None))
                   sample_frame).
  { right. right. right. left. reflexivity. }
  split; [exact Hin |].
  exact (@row_in_subset_of_its_warehouse sample_frame _ Hin).
Defined.

Lemma summary_counts_add_up_witness :
  cluster_summary (wh_data sample_frame (Some "A")) = inr sample_summary /\
  list_sum (map transacting_count sample_summary) =
    List.length (filter labelled (transacting (wh_data sample_frame (Some "A")))) /\
  list_sum (map non_transacting_count sample_summary) =
    List.length (filter labelled (non_transacting (wh_data sample_frame (Some "A")))) /\
  (list_sum (map transacting_count sample_summary)
   <= List.length (transacting (wh_data sample_frame (Some "A"))))%nat /\
  (list_sum (map non_transacting_count sample_summary)
   <= List.length (non_transacting (wh_data sample_frame (Some "A"))))%nat.
Proof.
  split; [reflexivity |].
  apply (@summary_counts_add_up (wh_data sample_frame (Some "A")) sample_summary).
  reflexivity.
Defined.

Lemma figure_layers_witness :
  exists fig,
    present sample_frame 0 = inr (Dashboard fig sample_summary) /\
    exists first rest cd hover on_text off_text,
      let wh := first :: rest in
      wh_data sample_frame (selectbox (warehouses sample_frame) 0) = wh /\
      cluster_data wh = inr cd /\
      data fig =
        Centroids "Clusters" "blue"
                  (map (fun row => ca_latitude (cd_agg row)) cd)
                  (map (fun row => ca_longitude (cd_agg row)) cd)
                  (centroid_keys cd) hover
        :: map (fun row => Line "gray"
                                [wh_lat first; ca_latitude (cd_agg row)]
                                [wh_long first; ca_longitude (cd_agg row)]) cd
        ++ [Customers "Transacting CX" "green"
                      (map latitude (transacting wh))
                      (map longitude (transacting wh)) on_text;
            Customers "Non-Transacting CX" "red"
                      (map latitude (non_transacting wh))
                      (map longitude (non_transacting wh)) off_text] /\
      Forall2 hover_of_cluster cd hover /\
      Forall2 hover_of_customer (transacting wh) on_text /\
      Forall2 hover_of_customer (non_transacting wh) off_text /\
      List.length (data fig) = (List.length cd + 3)%nat.
Proof.
  eexists. split; [vm_compute; reflexivity |].
  apply (@figure_layers sample_frame 0 _ sample_summary).
  vm_compute. reflexivity.
Defined.


(** * The subset of a warehouse and its centroids *)

(** The script's two filters, [==] on the name and the grouping on the
    label, keep the rows whose name and label are those values. *)
Lemma cluster_rows_wh_data (df : list Row) (name : string) (k : Z) :
  cluster_rows k (wh_data df (Some name)) = members_of name k df.
Proof.
  unfold cluster_rows, wh_data, members_of. rewrite filter_filter_and.
  apply filter_ext. intros r. unfold has_key.
  destruct (same_name (warehouse_name r) (Some name)) as [Hn | Hn].
  - rewrite Hn. simpl. rewrite String.eqb_refl. simpl.
    destruct (same_label (k_means r) (Some k)) as [Hk | Hk].
    + rewrite Hk. apply Z.eqb_refl.
    + destruct (k_means r) as [k' |]; [| reflexivity].
      destruct (Z.eqb_spec k' k) as [-> | Hne]; [contradiction Hk |]; reflexivity.
  - destruct (warehouse_name r) as [n |]; simpl; [| reflexivity].
    destruct (String.eqb_spec n name) as [-> | Hne]; [contradiction Hn |]; reflexivity.
Qed.

Lemma numbers_all (qs : list Q) : numbers (map Some qs) = qs.
Proof.
  induction qs as [| q qs IH]; simpl; [reflexivity | rewrite IH; reflexivity].
Qed.

(** C1, as the code has it.  In the centroid table of the rows that the
    script selects for a warehouse name, every cluster with member rows has
    a row; the member rows of a cluster are the rows of the uploaded table
    with that name and that label; and the latitude (longitude) of the
    cluster's row is, within 1e-9, the arithmetic mean of the latitudes
    (longitudes) that its member rows have.  A member row without the
    coordinate is left out of the mean, and a cluster none of whose rows
    has it has NaN; where every member row has it, the mean is over all
    member rows. *)
Theorem centroid_is_mean_of_present_coordinates (df : list Row) (name : string)
        (tbl : list ClusterRow)
        (H : cluster_data (wh_data df (Some name)) = inr tbl) (k : Z) :
  (members_of name k df <> [] ->
   exists row, In row tbl /\ ca_k_means (cd_agg row) = k) /\
  (forall row, In row tbl -> ca_k_means (cd_agg row) = k ->
     members_of name k df <> [] /\
     is_mean_of (ca_latitude (cd_agg row)) (map latitude (members_of name k df)) /\
     is_mean_of (ca_longitude (cd_agg row)) (map longitude (members_of name k df)) /\
     (forall qs, map latitude (members_of name k df) = map Some qs ->
        exists m, ca_latitude (cd_agg row) = Some m /\
                  Qabs (m - arithmetic_mean qs) <= tolerance) /\
     (forall qs, map longitude (members_of name k df) = map Some qs ->
        exists m, ca_longitude (cd_agg row) = Some m /\
                  Qabs (m - arithmetic_mean qs) <= tolerance)).
Proof.
  rewrite <- cluster_rows_wh_data. split.
  - intros Hne. exact (@cluster_data_covers _ _ k H Hne).
  - intros row Hin Hk.
    destruct (@cluster_data_row_members _ _ row H Hin) as (Hne & Hagg & _).
    rewrite Hk in Hne, Hagg.
    apply centroid_agg_inr in Hagg. simpl in Hagg.
    destruct Hagg as (_ & Hlat & Hlon & _).
    assert (Hall : forall (x : float) (vs : list float) (qs : list Q),
               vs <> [] -> is_mean_of x vs -> vs = map Some qs ->
               exists m, x = Some m /\ Qabs (m - arithmetic_mean qs) <= tolerance).
    { intros x vs qs Hvs Hmean ->. unfold is_mean_of in Hmean.
      rewrite numbers_all in Hmean.
      destruct qs as [| q qs]; [contradiction Hvs; reflexivity |].
      destruct x as [m |]; [| contradiction]. exists m. split; [reflexivity | exact Hmean]. }
    assert (Hmembers : forall (f : Row -> float),
               map f (cluster_rows k (wh_data df (Some name))) <> []).
    { intros f Hnil. apply map_eq_nil in Hnil. exact (Hne Hnil). }
    split; [exact Hne |].
    rewrite Hlat, Hlon.
    split; [apply mean_is_mean_of |]. split; [apply mean_is_mean_of |].
    split; intros qs Hqs.
    + exact (Hall _ _ qs (Hmembers latitude) (mean_is_mean_of _) Hqs).
    + exact (Hall _ _ qs (Hmembers longitude) (mean_is_mean_of _) Hqs).
Qed.

(** * Ingestion of a file with its header *)

Section UploadFacts.
Variable py_float : string -> option float.



Lemma need_present {A : Type} (header : list string) (c : string) (k : result A) :
  has_column header c = true -> need header c k = k.
Proof. unfold need. intros ->. reflexivity. Qed.

Lemma need_absent {A : Type} (header : list string) (c : string) (k : result A) :
  has_column header c = false -> need header c k = inl KeyError.
Proof. unfold need. intros ->. reflexivity. Qed.

Lemma need_inr {A : Type} (header : list string) (c : string) (k : result A) (a : A) :
  need header c k = inr a -> has_column header c = true /\ k = inr a.
Proof.
  unfold need. destruct (has_column header c); [| discriminate].
  intros H. split; [reflexivity | exact H].
Qed.

(** With the six columns in the file, lines 34-39 are [ingest]. *)
Lemma ingest_upload_present (header : list string) (raw : list RawRow) :
  (forall c, In c coerced_columns -> has_column header c = true) ->
  ingest_upload py_float header raw = ingest py_float raw.
Proof.
  intros Hall. unfold ingest_upload, ingest.
  rewrite need_present by (apply Hall; simpl; tauto).
  destruct (astype_float py_float (map raw_latitude raw)); simpl; [reflexivity |].
  rewrite need_present by (apply Hall; simpl; tauto).
  destruct (astype_float py_float (map raw_longitude raw)); simpl; [reflexivity |].
  rewrite need_present by (apply Hall; simpl; tauto).
  destruct (astype_float py_float (map raw_wh_lat raw)); simpl; [reflexivity |].
  rewrite need_present by (apply Hall; simpl; tauto).
  destruct (astype_float py_float (map raw_wh_long raw)); simpl; [reflexivity |].
  rewrite need_present by (apply Hall; simpl; tauto).
  destruct (astype_float py_float (map raw_distance_km raw)); simpl; [reflexivity |].
  rewrite need_present by (apply Hall; simpl; tauto).
  reflexivity.
Qed.

(** Ingestion gets through only if the six columns are in the file. *)
Lemma ingest_upload_inr (header : list string) (raw : list RawRow) (df : list Row) :
  ingest_upload py_float header raw = inr df ->
  (forall c, In c coerced_columns -> has_column header c = true) /\
  ingest py_float raw = inr df.
Proof.
  intros H.
  assert (Hcols : forall c, In c coerced_columns -> has_column header c = true).
  { unfold ingest_upload in H.
    apply need_inr in H. destruct H as [H1 H].
    apply bind_inr in H. destruct H as [lat [_ H]].
    apply need_inr in H. destruct H as [H2 H].
    apply bind_inr in H. destruct H as [lon [_ H]].
    apply need_inr in H. destruct H as [H3 H].
    apply bind_inr in H. destruct H as [wlat [_ H]].
    apply need_inr in H. destruct H as [H4 H].
    apply bind_inr in H. destruct H as [wlon [_ H]].
    apply need_inr in H. destruct H as [H5 H].
    apply bind_inr in H. destruct H as [dkm [_ H]].
    apply need_inr in H. destruct H as [H6 _].
    intros c Hc. simpl in Hc.
    destruct Hc as [<- | [<- | [<- | [<- | [<- | [<- | []]]]]]]; assumption. }
  split; [exact Hcols |]. rewrite <- (ingest_upload_present _ _ Hcols). exact H.
Qed.

Lemma some_column_absent (header : list string) (cols : list string) :
  (forall c, In c cols -> has_column header c = true) \/
  (exists c, In c cols /\ has_column header c = false).
Proof.
  induction cols as [| c cols [IH | [c' [Hin Hc']]]].
  - left. intros c [].
  - destruct (has_column header c) eqn:Hc.
    + left. intros c' [<- | Hin]; [exact Hc | apply IH, Hin].
    + right. exists c. split; [left; reflexivity | exact Hc].
  - right. exists c'. split; [right; exact Hin | exact Hc'].
Qed.

End UploadFacts.


(** * The aggregation in the store *)

Lemma deref_assign_new (x : string) (o : Obj) (s : Store) :
  deref (assign x o s) x = Some o.
Proof.
  unfold deref, assign. simpl. rewrite String.eqb_refl.
  rewrite nth_error_app2 by lia. rewrite Nat.sub_diag. reflexivity.
Qed.

Lemma deref_assign_other (x y : string) (o o' : Obj) (s : Store) :
  String.eqb x y = false -> deref s x = Some o' -> deref (assign y o s) x = Some o'.
Proof.
  unfold deref, assign. simpl. intros -> H.
  destruct (ref_of x (vars s)) as [l |]; [| discriminate H].
  rewrite nth_error_app1; [exact H |].
  apply nth_error_Some. rewrite H. discriminate.
Qed.

Lemma frame_at_assign_other (x y : string) (o : Obj) (s : Store) (rows : list Row) :
  String.eqb x y = false -> frame_at x s = Some rows ->
  frame_at x (assign y o s) = Some rows.
Proof.
  unfold frame_at. intros Hxy H.
  destruct (deref s x) as [[rows' | | | | |] |] eqn:Hd; try discriminate H.
  rewrite (@deref_assign_other x y o _ s Hxy Hd). exact H.
Qed.

Lemma put_last (h : list Obj) (o o' : Obj) :
  put (List.length h) o' (h ++ [o]) = (h ++ [o'])%list.
Proof.
  induction h as [| a h IH]; simpl; [reflexivity | rewrite IH; reflexivity].
Qed.

(** A column assignment to the frame just bound changes that frame and
    nothing else. *)
Lemma set_transacting_count_fresh (aggs : list CentroidAgg)
      (tc ntc : option (list nat)) (s : Store) :
  set_transacting_count (assign "cluster_data" (OCentroids aggs tc ntc) s) =
  Next (assign "cluster_data"
          (OCentroids aggs
             (Some (map (fun a => list_count "Transacting" (ca_cx_status a)) aggs))
             ntc) s).
Proof.
  unfold set_transacting_count, assign. simpl.
  rewrite nth_error_app2 by lia. rewrite Nat.sub_diag. simpl.
  rewrite put_last. reflexivity.
Qed.

Lemma set_non_transacting_count_fresh (aggs : list CentroidAgg)
      (tc ntc : option (list nat)) (s : Store) :
  set_non_transacting_count (assign "cluster_data" (OCentroids aggs tc ntc) s) =
  Next (assign "cluster_data"
          (OCentroids aggs tc
             (Some (map (fun a => list_count "Non-Transacting" (ca_cx_status a)) aggs)))
          s).
Proof.
  unfold set_non_transacting_count, assign. simpl.
  rewrite nth_error_app2 by lia. rewrite Nat.sub_diag. simpl.
  rewrite put_last. reflexivity.
Qed.

Lemma rows_of_columns_counts (aggs : list CentroidAgg) :
  rows_of_columns aggs
    (map (fun a => list_count "Transacting" (ca_cx_status a)) aggs)
    (map (fun a => list_count "Non-Transacting" (ca_cx_status a)) aggs) =
  map add_counts aggs.
Proof.
  induction aggs as [| a aggs IH]; simpl; [reflexivity | rewrite IH; reflexivity].
Qed.

Lemma aggregate_run (s : Store) (wh : list Row) :
  frame_at "wh_data" s = Some wh ->
  aggregate s =
  match mapM centroid_agg (groupby k_means wh) with
  | inl e => Fails e
  | inr aggs =>
      match mapM (summary_agg wh) (groupby k_means wh) with
      | inl e => Fails e
      | inr sm => Next (aggregated aggs sm s)
      end
  end.
Proof.
  intros Hwh. unfold aggregate, bind_cluster_data. rewrite Hwh.
  destruct (mapM centroid_agg (groupby k_means wh)) as [e | aggs]; simpl;
    [reflexivity |].
  rewrite set_transacting_count_fresh. simpl.
  rewrite set_non_transacting_count_fresh. simpl.
  unfold bind_cluster_summary.
  rewrite (@frame_at_assign_other "wh_data" "cluster_data" _ s wh eq_refl Hwh).
  reflexivity.
Qed.

Lemma tables_of_aggregated (aggs : list CentroidAgg) (sm : list SummaryRow)
      (s : Store) :
  tables_of (aggregated aggs sm s) = Some (map add_counts aggs, sm).
Proof.
  unfold tables_of, aggregated.
  rewrite (@deref_assign_other "cluster_data" "cluster_summary" _ _ _ eq_refl
             (@deref_assign_new "cluster_data" _ s)).
  rewrite deref_assign_new, rows_of_columns_counts. reflexivity.
Qed.

Lemma aggregated_frame (aggs : list CentroidAgg) (sm : list SummaryRow) (s : Store) :
  firstn (List.length (heap s)) (heap (aggregated aggs sm s)) = heap s /\
  (forall x, x <> "cluster_data" -> x <> "cluster_summary" ->
             ref_of x (vars (aggregated aggs sm s)) = ref_of x (vars s)).
Proof.
  unfold aggregated, assign. simpl. split.
  - rewrite <- app_assoc. rewrite firstn_app, Nat.sub_diag, firstn_all. simpl.
    apply app_nil_r.
  - intros x Hcd Hcs.
    destruct (String.eqb_spec x "cluster_summary"); [contradiction |].
    destruct (String.eqb_spec x "cluster_data"); [contradiction |]. reflexivity.
Qed.

Lemma aggregated_keeps_wh_data (aggs : list CentroidAgg) (sm : list SummaryRow)
      (s : Store) (x : string) (rows : list Row) :
  String.eqb x "cluster_data" = false -> String.eqb x "cluster_summary" = false ->
  frame_at x s = Some rows -> frame_at x (aggregated aggs sm s) = Some rows.
Proof.
  intros Hcd Hcs H. unfold aggregated.
  apply frame_at_assign_other; [exact Hcs |].
  apply frame_at_assign_other; [exact Hcd | exact H].
Qed.

Lemma frame_at_assign_new (x : string) (rows : list Row) (s : Store) :
  frame_at x (assign x (OFrame rows) s) = Some rows.
Proof. unfold frame_at. rewrite deref_assign_new. reflexivity. Qed.

(** Lines 44-53 bind the subset and leave [df] as it was. *)
Lemma select_run (choice : nat) (s : Store) (df : list Row) :
  frame_at "df" s = Some df ->
  match wh_data df (selectbox (warehouses df) choice) with
  | [] => select_and_aggregate choice s = Stops
  | first :: rest =>
      exists s', select_and_aggregate choice s = aggregate s' /\
                 frame_at "wh_data" s' = Some (first :: rest) /\
                 frame_at "df" s' = Some df
  end.
Proof.
  intros Hdf. unfold select_and_aggregate, bind_warehouses. rewrite Hdf. simpl.
  unfold bind_selected_warehouse. rewrite deref_assign_new. simpl.
  unfold bind_wh_data.
  rewrite (@frame_at_assign_other "df" "selected_warehouse" _ _ df eq_refl
             (@frame_at_assign_other "df" "warehouses" _ s df eq_refl Hdf)).
  rewrite deref_assign_new.
  destruct (wh_data df (selectbox (warehouses df) choice)) as [| first rest] eqn:Hwh.
  - reflexivity.
  - simpl. unfold bind_wh_coordinate. rewrite frame_at_assign_new. simpl.
    eexists. split; [reflexivity |]. split.
    + apply frame_at_assign_other; [reflexivity |].
      apply frame_at_assign_other; [reflexivity |].
      apply frame_at_assign_new.
    + apply frame_at_assign_other; [reflexivity |].
      apply frame_at_assign_other; [reflexivity |].
      apply frame_at_assign_other; [reflexivity |].
      apply frame_at_assign_other; [reflexivity |].
      apply frame_at_assign_other; [reflexivity | exact Hdf].
Qed.

(** C6.  Run in any store in which [wh_data] is bound to a frame, lines
    58-81 end as the two tables computed from the rows of that frame end:
    with their exception, or with [cluster_data] and [cluster_summary]
    bound to exactly these tables.  Every object that was in the store is
    left as it was, the two column assignments included, and no other
    variable is rebound; tables that an earlier run left behind have no
    part in the result, and running the lines again yields the same two
    tables.  Run from any store in which [df] is bound, lines 44-81 leave
    [df] as it was and yield the tables of the subset that the table and
    the choice in the selector determine. *)
Theorem aggregation_depends_on_subset_only (s : Store) (wh : list Row)
        (Hwh : frame_at "wh_data" s = Some wh) :
  match cluster_data wh, cluster_summary wh with
  | inr cd, inr sm =>
      exists s',
        aggregate s = Next s' /\
        tables_of s' = Some (cd, sm) /\
        firstn (List.length (heap s)) (heap s') = heap s /\
        (forall x, x <> "cluster_data" -> x <> "cluster_summary" ->
                   ref_of x (vars s') = ref_of x (vars s)) /\
        exists s'', aggregate s' = Next s'' /\ tables_of s'' = Some (cd, sm)
  | inl e, _ => aggregate s = Fails e
  | inr _, inl e => aggregate s = Fails e
  end /\
  (forall (s0 : Store) (df : list Row) (choice : nat),
      frame_at "df" s0 = Some df ->
      match wh_data df (selectbox (warehouses df) choice) with
      | [] => select_and_aggregate choice s0 = Stops
      | first :: rest =>
          match cluster_data (first :: rest), cluster_summary (first :: rest) with
          | inr cd, inr sm =>
              exists s',
                select_and_aggregate choice s0 = Next s' /\
                tables_of s' = Some (cd, sm) /\
                frame_at "df" s' = Some df
          | inl e, _ => select_and_aggregate choice s0 = Fails e
          | inr _, inl e => select_and_aggregate choice s0 = Fails e
          end
      end).
Proof.
  assert (Hrun : forall (s1 : Store) (rows : list Row),
             frame_at "wh_data" s1 = Some rows ->
             match cluster_data rows, cluster_summary rows with
             | inr cd, inr sm =>
                 exists aggs, aggregate s1 = Next (aggregated aggs sm s1) /\
                              cd = map add_counts aggs
             | inl e, _ => aggregate s1 = Fails e
             | inr _, inl e => aggregate s1 = Fails e
             end).
  { intros s1 rows H1. rewrite (aggregate_run _ H1).
    unfold cluster_data, cluster_summary.
    destruct (mapM centroid_agg (groupby k_means rows)) as [e | aggs]; simpl;
      [reflexivity |].
    destruct (mapM (summary_agg rows) (groupby k_means rows)) as [e | sm];
      [reflexivity |].
    exists aggs. split; reflexivity. }
  split.
  - pose proof (aggregate_run _ Hwh) as Honce.
    unfold cluster_data, cluster_summary.
    destruct (mapM centroid_agg (groupby k_means wh)) as [e | aggs] eqn:Haggs;
      simpl; [exact Honce |].
    destruct (mapM (summary_agg wh) (groupby k_means wh)) as [e | sm] eqn:Hsm;
      [exact Honce |].
    exists (aggregated aggs sm s).
    split; [exact Honce |]. split; [apply tables_of_aggregated |].
    destruct (aggregated_frame aggs sm s) as [Hheap Hvars].
    split; [exact Hheap |]. split; [exact Hvars |].
    assert (Hwh' : frame_at "wh_data" (aggregated aggs sm s) = Some wh).
    { apply aggregated_keeps_wh_data; [reflexivity | reflexivity | exact Hwh]. }
    pose proof (aggregate_run _ Hwh') as Hagain. rewrite Haggs, Hsm in Hagain.
    exists (aggregated aggs sm (aggregated aggs sm s)).
    split; [exact Hagain | apply tables_of_aggregated].
  - intros s0 df choice Hdf.
    pose proof (@select_run choice s0 df Hdf) as Hsel.
    destruct (wh_data df (selectbox (warehouses df) choice)) as [| first rest];
      [exact Hsel |].
    destruct Hsel as [s1 [Hsame [Hsub Hdf1]]]. rewrite Hsame.
    specialize (Hrun s1 (first :: rest) Hsub).
    destruct (cluster_data (first :: rest)) as [e | cd]; [exact Hrun |].
    destruct (cluster_summary (first :: rest)) as [e | sm]; [exact Hrun |].
    destruct Hrun as [aggs [Hagg ->]].
    exists (aggregated aggs sm s1).
    split; [exact Hagg |]. split; [apply tables_of_aggregated |].
    apply aggregated_keeps_wh_data; [reflexivity | reflexivity | exact Hdf1].
Qed.

(** * Missing columns *)

Lemma present_inl (df : list Row) (choice : nat) (e : Error) :
  present df choice = inl e -> e = TypeError \/ e = ValueError.
Proof.
  unfold present. intros H.
  destruct (wh_data df (selectbox (warehouses df) choice)) as [| first rest];
    [discriminate H |].
  apply bind_inl in H. destruct H as [H | [cd [_ H]]];
    [left; exact (cluster_data_inl _ H) |].
  apply bind_inl in H. destruct H as [H | [summary [_ H]]];
    [left; exact (cluster_summary_inl _ H) |].
  apply bind_inl in H. destruct H as [H | [fig [_ H]]];
    [exact (render_inl _ _ _ H) | discriminate H].
Qed.

Lemma complete_coerced (header : list string) :
  complete header -> forall c, In c coerced_columns -> has_column header c = true.
Proof. intros H c Hc. apply H. apply in_or_app. left. exact Hc. Qed.

Lemma complete_other (header : list string) :
  complete header -> forall c, In c other_columns -> has_column header c = true.
Proof. intros H c Hc. apply H. apply in_or_app. right. exact Hc. Qed.

(** With the other six columns in the file, lines 44-171 are [present]. *)
Lemma present_upload_present (header : list string) (df : list Row) (choice : nat) :
  (forall c, In c other_columns -> has_column header c = true) ->
  present_upload header df choice = present df choice.
Proof.
  intros Hall. unfold present_upload, present.
  rewrite need_present by (apply Hall; simpl; tauto).
  destruct (wh_data df (selectbox (warehouses df) choice)) as [| first rest];
    [reflexivity |].
  rewrite !need_present by (apply Hall; simpl; tauto).
  destruct (cluster_data (first :: rest)) as [e | cd]; simpl; [reflexivity |].
  destruct (cluster_summary (first :: rest)) as [e | sm]; simpl; [reflexivity |].
  destruct (centroid_trace cd) as [e | markers] eqn:Hct; simpl.
  - unfold render. rewrite Hct. reflexivity.
  - rewrite need_present by (apply Hall; simpl; tauto). reflexivity.
Qed.

(** What a dashboard on the page tells about the run. *)
Lemma present_upload_dashboard (header : list string) (df : list Row)
      (choice : nat) (fig : Figure) (summary : list SummaryRow) :
  present_upload header df choice = inr (Dashboard fig summary) ->
  (forall c, In c other_columns -> has_column header c = true) /\
  exists first rest cd markers,
    wh_data df (selectbox (warehouses df) choice) = first :: rest /\
    cluster_data (first :: rest) = inr cd /\
    centroid_trace cd = inr markers.
Proof.
  unfold present_upload. intros H.
  apply need_inr in H. destruct H as [H1 H].
  destruct (wh_data df (selectbox (warehouses df) choice)) as [| first rest];
    [discriminate H |].
  apply need_inr in H. destruct H as [H2 H].
  apply need_inr in H. destruct H as [H3 H].
  apply need_inr in H. destruct H as [H4 H].
  apply need_inr in H. destruct H as [H5 H].
  apply bind_inr in H. destruct H as [cd [Hcd H]].
  apply bind_inr in H. destruct H as [sm [_ H]].
  apply bind_inr in H. destruct H as [markers [Hct H]].
  apply need_inr in H. destruct H as [H6 _].
  split.
  - intros c Hc. simpl in Hc.
    destruct Hc as [<- | [<- | [<- | [<- | [<- | [<- | []]]]]]]; assumption.
  - exists first, rest, cd, markers. repeat split; assumption.
Qed.

Lemma script_upload_dashboard (py_float : string -> option float)
      (header : list string) (raw : list RawRow) (choice : nat)
      (fig : Figure) (summary : list SummaryRow) :
  script_upload py_float (Some (header, raw)) choice = Dashboard fig summary ->
  exists df, ingest_upload py_float header raw = inr df /\
             present_upload header df choice = inr (Dashboard fig summary).
Proof.
  unfold script_upload.
  destruct (ingest_upload py_float header raw) as [e | df] eqn:Hing; simpl;
    [discriminate |].
  destruct (present_upload header df choice) as [e | p] eqn:Hp; simpl;
    [discriminate |].
  intros ->. exists df. split; [reflexivity | exact Hp].
Qed.

(** X11.  An exception for a missing column is raised only when the file
    lacks one of the twelve columns that the script names: on a file that
    has them all the run is the run on its rows, and it never ends in
    KeyError, the labels looked up through [wh_data.loc] being always
    found.  A dashboard is shown only for a file that has all twelve. *)
Theorem key_error_is_a_missing_column (py_float : string -> option float)
        (header : list string) (raw : list RawRow) (choice : nat) :
  (complete header ->
   script_upload py_float (Some (header, raw)) choice
     = script py_float (Some raw) choice /\
   script_upload py_float (Some (header, raw)) choice <> Raised KeyError) /\
  (script_upload py_float (Some (header, raw)) choice = Raised KeyError ->
   exists c, In c (coerced_columns ++ other_columns) /\ has_column header c = false) /\
  (forall fig summary,
      script_upload py_float (Some (header, raw)) choice = Dashboard fig summary ->
      complete header).
Proof.
  assert (Hcomplete : complete header ->
            script_upload py_float (Some (header, raw)) choice
              = script py_float (Some raw) choice /\
            script_upload py_float (Some (header, raw)) choice <> Raised KeyError).
  { intros Hall.
    assert (Hsame : script_upload py_float (Some (header, raw)) choice
                    = script py_float (Some raw) choice).
    { unfold script_upload, script.
      rewrite (@ingest_upload_present py_float header raw (complete_coerced Hall)).
      destruct (ingest py_float raw) as [e | df]; simpl; [reflexivity |].
      rewrite (@present_upload_present header df choice (complete_other Hall)). reflexivity. }
    split; [exact Hsame |]. rewrite Hsame. unfold script.
    destruct (ingest py_float raw) as [e | df] eqn:Hing; simpl.
    - apply ingest_inl in Hing. destruct Hing as [-> _]. discriminate.
    - destruct (present df choice) as [e | p] eqn:Hp; simpl.
      + destruct (present_inl _ _ Hp) as [-> | ->]; discriminate.
      + intros ->. exact (present_not_raised _ _ Hp). }
  split; [exact Hcomplete |]. split.
  - intros Hkey.
    destruct (some_column_absent header (coerced_columns ++ other_columns))
      as [Hall | Habsent]; [| exact Habsent].
    exfalso. exact (proj2 (Hcomplete Hall) Hkey).
  - intros fig summary H. apply script_upload_dashboard in H.
    destruct H as [df [Hing Hp]].
    apply ingest_upload_inr in Hing. destruct Hing as [Hc _].
    apply present_upload_dashboard in Hp. destruct Hp as [Ho _].
    intros c Hin. apply in_app_or in Hin. destruct Hin as [Hin | Hin];
      [apply Hc, Hin | apply Ho, Hin].
Qed.

(** * Text and gaps in [partner_gmv] *)

(** A centroid trace can be built only if no row of a cluster holds text
    in [partner_gmv]: the total of such a cluster is text, or the sum has
    failed before. *)
Lemma clustered_rows_numeric (wh : list Row) (cd : list ClusterRow) (markers : Trace) :
  cluster_data wh = inr cd -> centroid_trace cd = inr markers ->
  forall r, In r wh -> labelled r = true -> numeric_cell (partner_gmv r) = true.
Proof.
  intros Hcd Hct r Hin Hlab.
  unfold centroid_trace in Hct. apply bind_inr in Hct.
  destruct Hct as [hover [Hhover _]]. apply mapM_Forall2 in Hhover.
  destruct (partner_gmv r) as [q | | s] eqn:Hgmv; try reflexivity. exfalso.
  unfold labelled in Hlab. destruct (k_means r) as [k |] eqn:Hk; [| discriminate].
  assert (Hmem : In r (cluster_rows k wh)).
  { apply filter_In. split; [exact Hin |]. unfold has_key. rewrite Hk.
    apply Z.eqb_refl. }
  assert (Hne : cluster_rows k wh <> []).
  { intros Hnil. rewrite Hnil in Hmem. contradiction. }
  destruct (@cluster_data_covers _ _ k Hcd Hne) as [row [Hrow Hkey]].
  destruct (@cluster_data_row_members _ _ row Hcd Hrow) as (_ & Hagg & _).
  rewrite Hkey in Hagg. apply centroid_agg_inr in Hagg. simpl in Hagg.
  destruct Hagg as (_ & _ & _ & Hsum & _).
  destruct (@sum_cells_text _ _ s Hsum) as [t Ht].
  { rewrite <- Hgmv. apply in_map, Hmem. }
  destruct (Forall2_In_l row Hhover Hrow) as [h [_ Hh]].
  unfold centroid_hover in Hh. rewrite Ht in Hh. discriminate Hh.
Qed.

(** X8.  A dashboard is shown only if no row of the selected subset that
    carries a cluster label holds text in [partner_gmv]: the total of a
    cluster with such a row is no number, and the hover text of its
    centroid cannot be formatted. *)
Theorem dashboard_needs_numeric_cluster_gmv (py_float : string -> option float)
        (header : list string) (raw : list RawRow) (choice : nat)
        (fig : Figure) (summary : list SummaryRow)
        (H : script_upload py_float (Some (header, raw)) choice
             = Dashboard fig summary) :
  exists df,
    ingest py_float raw = inr df /\
    forall r, In r (wh_data df (selectbox (warehouses df) choice)) ->
              labelled r = true -> numeric_cell (partner_gmv r) = true.
Proof.
  apply script_upload_dashboard in H. destruct H as [df [Hing Hp]].
  apply ingest_upload_inr in Hing. destruct Hing as [_ Hing].
  exists df. split; [exact Hing |].
  apply present_upload_dashboard in Hp.
  destruct Hp as [_ (first & rest & cd & markers & Hwh & Hcd & Hct)].
  rewrite Hwh. exact (@clustered_rows_numeric _ _ _ Hcd Hct).
Qed.

Lemma sum_from_missing (cs : list Cell) (acc : option Cell) :
  Forall (fun c => c = Missing) cs -> sum_from acc cs = inr acc.
Proof.
  induction 1 as [| c cs -> _ IH]; simpl; [reflexivity | exact IH].
Qed.

Lemma to_numeric_missing (cs : list Cell) :
  Forall (fun c => c = Missing) cs ->
  exists vs, to_numeric cs = inr vs /\ numbers vs = [].
Proof.
  induction 1 as [| c cs -> _ [vs [IH Hvs]]]; simpl.
  - exists []. split; reflexivity.
  - rewrite IH. simpl. exists (NaN :: vs). split; [reflexivity | exact Hvs].
Qed.

Lemma mean_cells_missing (cs : list Cell) (x : float) :
  Forall (fun c => c = Missing) cs -> mean_cells cs = inr x -> x = NaN.
Proof.
  intros Hall H. unfold mean_cells in H.
  destruct (to_numeric_missing Hall) as [vs [Hvs Hnone]].
  rewrite Hvs in H. simpl in H. injection H as <-.
  apply mean_no_number, Hnone.
Qed.

(** X3.  For a cluster none of whose member rows has a [partner_gmv], the
    total GMV of the centroid table is 0, while both status means of
    [partner_gmv] in the summary table are NaN, whatever the counts. *)
Theorem missing_gmv_total_zero_means_nan (wh : list Row) (cd : list ClusterRow)
        (sm : list SummaryRow) (k : Z)
        (Hcd : cluster_data wh = inr cd) (Hsm : cluster_summary wh = inr sm)
        (Hgap : forall r, In r (cluster_rows k wh) -> partner_gmv r = Missing) :
  (forall row, In row cd -> ca_k_means (cd_agg row) = k ->
     ca_partner_gmv (cd_agg row) = Num 0) /\
  (forall srow, In srow sm -> cs_k_means srow = k ->
     avg_pgmv_transacting srow = NaN /\ avg_pgmv_nontransacting srow = NaN).
Proof.
  assert (Hcells : Forall (fun c => c = Missing) (map partner_gmv (cluster_rows k wh))).
  { apply Forall_map, Forall_forall. exact Hgap. }
  split.
  - intros row Hin Hk.
    destruct (@cluster_data_row_members _ _ row Hcd Hin) as (_ & Hagg & _).
    rewrite Hk in Hagg. apply centroid_agg_inr in Hagg. simpl in Hagg.
    destruct Hagg as (_ & _ & _ & Hsum & _).
    unfold sum_cells in Hsum. rewrite (@sum_from_missing _ None Hcells) in Hsum.
    simpl in Hsum. injection Hsum as <-. reflexivity.
  - intros srow Hin Hk.
    destruct (@cluster_summary_row_members _ _ srow Hsm Hin) as [_ Hagg].
    rewrite Hk in Hagg. apply summary_agg_inr in Hagg. simpl in Hagg.
    destruct Hagg as (_ & _ & _ & [pt [Hpt Hapt]] & [pn [Hpn Hapn]] & _).
    assert (Hsel : forall lit sel,
               select_status wh lit partner_gmv (cluster_rows k wh) = inr sel ->
               Forall (fun c => c = Missing) sel).
    { intros lit sel Hs.
      destruct (@select_status_total _ (fun c => c = Missing) wh lit partner_gmv
                  (cluster_rows k wh) (cluster_rows_incl k wh))
        as [sel' [Hs' Hall]].
      - apply Forall_forall. exact Hgap.
      - rewrite Hs in Hs'. injection Hs' as <-. exact Hall. }
    split.
    + exact (@mean_cells_missing _ _ (Hsel _ _ Hpt) Hapt).
    + exact (@mean_cells_missing _ _ (Hsel _ _ Hpn) Hapn).
Qed.

(** * The store, the header and missing values on the samples *)

(** A file without [last_order_date] passes ingestion and the aggregation
    and stops when the customer layer is built. *)
Example missing_last_order_date_raises :
  script_upload decimal_float (Some (header_without_last_order_date, sample_upload)) 0
  = Raised KeyError /\
  script_upload decimal_float (Some (full_header, sample_upload)) 0 = sample_page.
Proof. split; vm_compute; reflexivity. Qed.

(** C1 as stated fails: the only row of cluster 0 has no latitude, and the
    centroid of the cluster has none either, so it is within 1e-9 of no
    mean; of the two rows of cluster 1 one has no latitude, and the
    centroid is the latitude of the other, not a mean over the two
    member rows. *)
Lemma centroid_without_latitude_is_nan :
  exists df row0 row1,
    ingest decimal_float upload_missing_latitude = inr df /\
    cluster_data (wh_data df (Some "A")) = inr [row0; row1] /\
    map latitude (members_of "A" 0 df) = [NaN] /\
    ca_latitude (cd_agg row0) = NaN /\
    (forall m, ca_latitude (cd_agg row0) <> Some m) /\
    map latitude (members_of "A" 1 df) = [Some 1.5; NaN] /\
    exists m, ca_latitude (cd_agg row1) = Some m /\ m == 1.5.
Proof.
  do 3 eexists.
  split; [vm_compute; reflexivity |].
  split; [vm_compute; reflexivity |].
  split; [vm_compute; reflexivity |].
  split; [reflexivity |].
  split; [intros m Hm; discriminate Hm |].
  split; [vm_compute; reflexivity |].
  eexists. split; [reflexivity | reflexivity].
Qed.


(** Warehouse A of the sample, cluster 0. *)
Lemma centroid_is_mean_of_present_coordinates_witness :
  cluster_data (wh_data sample_frame (Some "A")) = inr sample_centroids /\
  (members_of "A" 0 sample_frame <> [] ->
   exists row, In row sample_centroids /\ ca_k_means (cd_agg row) = 0%Z) /\
  (forall row, In row sample_centroids -> ca_k_means (cd_agg row) = 0%Z ->
     members_of "A" 0 sample_frame <> [] /\
     is_mean_of (ca_latitude (cd_agg row))
                (map latitude (members_of "A" 0 sample_frame)) /\
     is_mean_of (ca_longitude (cd_agg row))
                (map longitude (members_of "A" 0 sample_frame)) /\
     (forall qs, map latitude (members_of "A" 0 sample_frame) = map Some qs ->
        exists m, ca_latitude (cd_agg row) = Some m /\
                  Qabs (m - arithmetic_mean qs) <= tolerance) /\
     (forall qs, map longitude (members_of "A" 0 sample_frame) = map Some qs ->
        exists m, ca_longitude (cd_agg row) = Some m /\
                  Qabs (m - arithmetic_mean qs) <= tolerance)).
Proof.
  split; [reflexivity |].
  apply (@centroid_is_mean_of_present_coordinates sample_frame "A" sample_centroids).
  reflexivity.
Defined.

(** The sample store: [cluster_data] is bound to a table of an earlier
    run, and the subset is that of warehouse A. *)
Lemma aggregation_depends_on_subset_only_witness :
  frame_at "wh_data" sample_subset_store = Some (wh_data sample_frame (Some "A")) /\
  (exists s',
      aggregate sample_subset_store = Next s' /\
      tables_of s' = Some (sample_centroids, sample_summary) /\
      firstn (List.length (heap sample_subset_store)) (heap s')
        = heap sample_subset_store /\
      exists s'', aggregate s' = Next s'' /\
                  tables_of s'' = Some (sample_centroids, sample_summary)) /\
  (exists s',
      select_and_aggregate 0 sample_store = Next s' /\
      tables_of s' = Some (sample_centroids, sample_summary) /\
      frame_at "df" s' = Some sample_frame).
Proof.
  assert (Hwh : frame_at "wh_data" sample_subset_store
                = Some (wh_data sample_frame (Some "A"))).
  { reflexivity. }
  split; [exact Hwh |].
  destruct (@aggregation_depends_on_subset_only sample_subset_store _ Hwh)
    as [Hagg Hsel].
  split.
  - change (cluster_data (wh_data sample_frame (Some "A")))
      with (@inr Error _ sample_centroids) in Hagg.
    change (cluster_summary (wh_data sample_frame (Some "A")))
      with (@inr Error _ sample_summary) in Hagg.
    destruct Hagg as (s' & H1 & H2 & H3 & _ & H4).
    exists s'. repeat split; assumption.
  - specialize (Hsel sample_store sample_frame 0%nat eq_refl).
    change (wh_data sample_frame (selectbox (warehouses sample_frame) 0))
      with (wh_data sample_frame (Some "A")) in Hsel.
    remember (wh_data sample_frame (Some "A")) as wh eqn:Hrows.
    destruct wh as [| first rest]; [discriminate Hrows |].
    rewrite Hrows in Hsel.
    change (cluster_data (wh_data sample_frame (Some "A")))
      with (@inr Error _ sample_centroids) in Hsel.
    change (cluster_summary (wh_data sample_frame (Some "A")))
      with (@inr Error _ sample_summary) in Hsel.
    exact Hsel.
Defined.

(** The two rows of the only cluster have no [partner_gmv]. *)
Lemma missing_gmv_total_zero_means_nan_witness :
  exists cd sm,
    cluster_data (wh_data (frame_of upload_missing_gmv) (Some "A")) = inr cd /\
    cluster_summary (wh_data (frame_of upload_missing_gmv) (Some "A")) = inr sm /\
    (forall r, In r (cluster_rows 0 (wh_data (frame_of upload_missing_gmv) (Some "A"))) ->
               partner_gmv r = Missing) /\
    (forall row, In row cd -> ca_k_means (cd_agg row) = 0%Z ->
       ca_partner_gmv (cd_agg row) = Num 0) /\
    (forall srow, In srow sm -> cs_k_means srow = 0%Z ->
       avg_pgmv_transacting srow = NaN /\ avg_pgmv_nontransacting srow = NaN).
Proof.
  assert (Hgap : forall r,
             In r (cluster_rows 0 (wh_data (frame_of upload_missing_gmv) (Some "A"))) ->
             partner_gmv r = Missing).
  { intros r Hr. vm_compute in Hr. destruct Hr as [<- | [<- | []]]; reflexivity. }
  do 2 eexists.
  split; [vm_compute; reflexivity |]. split; [vm_compute; reflexivity |].
  split; [exact Hgap |].
  apply (@missing_gmv_total_zero_means_nan
           (wh_data (frame_of upload_missing_gmv) (Some "A")) _ _ 0%Z).
  - vm_compute. reflexivity.
  - vm_compute. reflexivity.
  - exact Hgap.
Defined.

(** The sample with its full header is shown. *)
Lemma dashboard_needs_numeric_cluster_gmv_witness :
  exists fig summary,
    script_upload decimal_float (Some (full_header, sample_upload)) 0
      = Dashboard fig summary /\
    exists df,
      ingest decimal_float sample_upload = inr df /\
      forall r, In r (wh_data df (selectbox (warehouses df) 0)) ->
                labelled r = true -> numeric_cell (partner_gmv r) = true.
Proof.
  do 2 eexists. split; [vm_compute; reflexivity |].
  eapply (@dashboard_needs_numeric_cluster_gmv decimal_float full_header
            sample_upload 0).
  vm_compute. reflexivity.
Defined.
